(** * The processing-job orchestration engine of the video chaptering backend

    A shallow embedding of
      - [backend/src/models/processing_job.py]  (job state machine),
      - [backend/src/ai/chapter_processor.py]   (stage progress wrappers, chapter persistence),
      - [backend/src/ai/llm_processor.py]       (generation with retry, fallback, validation/merge),
      - [backend/src/ai/processing_pipeline.py] (dispatcher and queue task),
      - [backend/src/ai/asr_processor.py]       (timestamps, transcription progress),
      - [backend/src/models/chapter.py], [backend/src/models/video.py] (rows and formatting),
      - [backend/src/routes/websocket_events.py] (job notifications),
    followed by the properties of the specification stated over it and by
    further properties of the code.

    Conventions of the embedding.
      - A Python float is an IEEE 754 binary64 number.  Where the code only
        copies or compares floats, a float is written as the rational it
        equals ([Q]; [==] is numeric equality), so the values in the model
        are the numbers, without NaN and the infinities.  Where the code
        rounds and the rounded result decides what happens (the gap test of
        the merge pass, the remaining-time estimate, the average
        confidence), the operation is carried out on doubles ([float], with
        the operations of the library's [SpecFloat] at precision 53 and
        exponent bound 1024).
      - A [datetime] is an integer instant; every [datetime.utcnow()] read is
        an explicit argument of the operation that performs it.
      - Dictionaries are [gmap string _]; JSON columns hold [json] values.
      - A method that mutates [self] returns the mutated object; a method
        that can raise after mutating returns the object together with a
        [result].
      - Columns never written by the operations below ([created_at],
        [updated_at], [estimated_time_remaining]) are left out of the rows. *)

From Stdlib Require Import ZArith QArith Qround Lqa Lia List String DecimalString SpecFloat.
From stdpp Require Import base option list strings gmap sorting.

Local Open Scope string_scope.
Local Open Scope list_scope.

(** ** Python values, exceptions, results *)

Definition datetime := Z.

#[warnings="-register-all"]
Inductive json :=
| JNull
| JBool (b : bool)
| JInt (z : Z)
| JFloat (q : Q)
| JDouble (x : spec_float)       (* a float given as the double itself *)
| JStr (s : string)
| JIso (t : datetime)            (* the string [t.isoformat()] *)
| JArr (l : list json)
| JObj (d : list (string * json)).

Inductive exn :=
| ValueError (msg : string)
| AttributeError (owner attr : string)
| UnboundLocalError (name : string)
| TypeError (msg : string)
| OverflowError (msg : string)
| AdapterError (msg : string)     (* raised by the model, tokenizer or queue adapters *)
| Retry (cause : exn).            (* celery's [self.retry(exc=...)] *)

Inductive result (A : Type) :=
| Ok (a : A)
| Raise (e : exn).
Arguments Ok {A} a.
Arguments Raise {A} e.

(** [x < y] on floats. *)
Definition Qltb (x y : Q) : bool := negb (Qle_bool y x).

(** The builtins [max(a, b)] and [min(a, b)]: the first argument is returned
    unless the second is strictly greater (smaller). *)
Definition py_max (a b : Q) : Q := if Qltb a b then b else a.
Definition py_min (a b : Q) : Q := if Qltb b a then b else a.

(** Truthiness of an optional dictionary: [None] and [{}] are false. *)
Definition dict_truthy {V} (d : option (gmap string V)) : bool :=
  match d with
  | None => false
  | Some m => negb (Nat.eqb (size m) 0)
  end.

(** [str(n)] for a non-negative integer. *)
Definition str_of_nat (n : nat) : string := NilEmpty.string_of_uint (Nat.to_uint n).

(** [str(n)] for an integer. *)
Definition str_of_Z (z : Z) : string :=
  if (z <? 0)%Z then "-" +:+ str_of_nat (Z.to_nat (- z)) else str_of_nat (Z.to_nat z).

(** The format [{n:02d}]: padded with a zero to two characters. *)
Definition pad2 (z : Z) : string :=
  let digits := str_of_Z z in
  if Nat.ltb (String.length digits) 2 then "0" +:+ digits else digits.

(** [d[k]] on a dictionary literal kept in insertion order. *)
Fixpoint dict_get (k : string) (d : list (string * json)) : option json :=
  match d with
  | [] => None
  | (k', v) :: d' => if String.eqb k' k then Some v else dict_get k d'
  end.

(** The builtins [min(xs)] and [max(xs)] on a list of floats with first
    element [x]. *)
Definition py_min_of (x : Q) (xs : list Q) : Q := fold_left py_min xs x.
Definition py_max_of (x : Q) (xs : list Q) : Q := fold_left py_max xs x.

(** ** Floats that round *)

(** A double: zero, infinity, NaN or [(-1)^s * m * 2^e] in canonical form. *)
Definition float := spec_float.

(** The double nearest to a rational, ties to even: what [float(x)], a
    float literal and the true division [n / d] of integers give.  It is
    the rational itself when that is a double. *)
Definition float_of_Q (q : Q) : float :=
  match Qnum q with
  | Z0 => S754_zero false
  | Zpos n =>
      let '(mz, ez, lz) := SFdiv_core_binary 53 1024 (Zpos n) 0 (Zpos (Qden q)) 0 in
      binary_round_aux 53 1024 false mz ez lz
  | Zneg n =>
      let '(mz, ez, lz) := SFdiv_core_binary 53 1024 (Zpos n) 0 (Zpos (Qden q)) 0 in
      binary_round_aux 53 1024 true mz ez lz
  end.

(** [x + y], [x - y], [x * y] and [x / y] (for [y] other than zero) on floats. *)
Definition float_add : float -> float -> float := SFadd 53 1024.
Definition float_sub : float -> float -> float := SFsub 53 1024.
Definition float_mul : float -> float -> float := SFmul 53 1024.
Definition float_div : float -> float -> float := SFdiv 53 1024.

(** [x >= y] and [x <= y] on floats: false when either is NaN. *)
Definition float_ge (x y : float) : bool := SFleb y x.
Definition float_le (x y : float) : bool := SFleb x y.

(** The rational a finite float equals. *)
Definition float_to_Q (x : float) : option Q :=
  match x with
  | S754_zero _ => Some 0%Q
  | S754_finite s m e =>
      let magnitude :=
        match e with
        | Zneg k => Qmake (Zpos m) (2 ^ k)
        | _ => inject_Z (Zpos m * 2 ^ e)
        end in
      Some (if s then (- magnitude)%Q else magnitude)
  | S754_infinity _ | S754_nan => None
  end.

(** [int(x)] on a float: truncation towards zero. *)
Definition float_int (x : float) : result Z :=
  match x with
  | S754_zero _ => Ok 0%Z
  | S754_finite s m e =>
      let magnitude :=
        match e with
        | Zneg k => (Zpos m / 2 ^ Zpos k)%Z
        | _ => (Zpos m * 2 ^ e)%Z
        end in
      Ok (if s then (- magnitude)%Z else magnitude)
  | S754_infinity _ => Raise (OverflowError "cannot convert float infinity to integer")
  | S754_nan => Raise (ValueError "cannot convert float NaN to integer")
  end.

(** [sum(xs)] on a list of floats: the additions start from the integer 0
    and run from left to right. *)
Definition float_sum (xs : list Q) : float :=
  fold_left (fun total x => float_add total (float_of_Q x)) xs (float_of_Q 0).

(** [x // y] and [x % y] on floats, and [int(x)] (truncation towards zero). *)
Definition py_floordiv (x y : Q) : Q := inject_Z (Qfloor (x / y)).
Definition py_mod (x y : Q) : Q := x - y * py_floordiv x y.
Definition py_int (x : Q) : Z := Z.quot (Qnum x) (Zpos (Qden x)).

(** The three locals [hours], [minutes], [secs] that every duration and
    timestamp formatter of the code base computes from [seconds], for
    [0 <= seconds < 2**53]: there the float operations [//] and [%] round
    nothing.  (On a negative float they can round up to the divisor.) *)
Definition hours_minutes_secs (seconds : Q) : Z * Z * Z :=
  let hours := py_int (py_floordiv seconds 3600) in
  let minutes := py_int (py_floordiv (py_mod seconds 3600) 60) in
  let secs := py_int (py_mod seconds 60) in
  (hours, minutes, secs).

(** The processing options a caller may pass ([processing_options],
    [config_overrides], the job's [config] column): each key is optional,
    and a value that is present has the type the code expects of it: a
    float that is a number, an [int], a string. *)
Record options := mk_options {
  opt_min_chapter_length : option Q;
  opt_max_chapters : option Z;
  opt_transcription_language : option string;
  opt_initial_prompt : option string
}.

(** [{}] *)
Definition no_options : options := mk_options None None None None.

(** ** [class ProcessingStage(Enum)] *)

Module ProcessingStage.

Inductive t :=
| UPLOADING
| EXTRACTING_AUDIO
| GENERATING_TRANSCRIPT
| ANALYZING_CONTENT
| GENERATING_CHAPTERS
| FINALIZING
| COMPLETE
| ERROR.

#[global] Instance eq_dec : EqDecision t.
Proof. solve_decision. Defined.

(** The members in definition order, under their attribute names. *)
Definition members : list (string * t) :=
  [ ("UPLOADING", UPLOADING);
    ("EXTRACTING_AUDIO", EXTRACTING_AUDIO);
    ("GENERATING_TRANSCRIPT", GENERATING_TRANSCRIPT);
    ("ANALYZING_CONTENT", ANALYZING_CONTENT);
    ("GENERATING_CHAPTERS", GENERATING_CHAPTERS);
    ("FINALIZING", FINALIZING);
    ("COMPLETE", COMPLETE);
    ("ERROR", ERROR) ].

(** [stage.value] *)
Definition value (s : t) : string :=
  match s with
  | UPLOADING => "uploading"
  | EXTRACTING_AUDIO => "extracting_audio"
  | GENERATING_TRANSCRIPT => "generating_transcript"
  | ANALYZING_CONTENT => "analyzing_content"
  | GENERATING_CHAPTERS => "generating_chapters"
  | FINALIZING => "finalizing"
  | COMPLETE => "complete"
  | ERROR => "error"
  end.

(** The member bound to an attribute name, if any. *)
Fixpoint assoc (name : string) (l : list (string * t)) : option t :=
  match l with
  | [] => None
  | (n, s) :: l' => if String.eqb n name then Some s else assoc name l'
  end.

(** [ProcessingStage.<name>]: attribute access on the enum class finds a
    member by name and raises [AttributeError] for any other name. *)
Definition getattr (name : string) : result t :=
  match assoc name members with
  | Some s => Ok s
  | None => Raise (AttributeError "ProcessingStage" name)
  end.

(** [ProcessingStage(v)]: the member whose value is [v], or [ValueError];
    the message quotes [v] as [repr] does for a string without quotes or
    escapes. *)
Definition of_value (v : string) : result t :=
  match List.find (fun ns => String.eqb (value (snd ns)) v) members with
  | Some ns => Ok (snd ns)
  | None => Raise (ValueError ("'" +:+ v +:+ "' is not a valid ProcessingStage"))
  end.

(** [stage in [COMPLETE, ERROR]] *)
Definition terminal (s : t) : bool :=
  bool_decide (s = COMPLETE) || bool_decide (s = ERROR).

(** [{stage.value: 0.0 for stage in ProcessingStage
      if stage not in [COMPLETE, ERROR]}] *)
Definition zero_stage_progress : gmap string Q :=
  list_to_map
    (map (fun ns => (value (snd ns), 0%Q))
         (filter (fun ns => terminal (snd ns) = false) members)).

End ProcessingStage.

(** ** [class ProcessingJob(BaseModel)] *)

Module ProcessingJob.

Import ProcessingStage.

Record t := mk {
  id : string;
  video_id : string;
  status : ProcessingStage.t;
  progress : Q;
  start_time : option datetime;
  end_time : option datetime;
  error_message : option string;
  error_details : json;
  stage_progress : option (gmap string Q);
  metadata : option (gmap string json);
  config : option options;
  task_id : option string
}.

Definition set_status v (j : t) : t :=
  mk (id j) (video_id j) v (progress j) (start_time j) (end_time j)
     (error_message j) (error_details j) (stage_progress j) (metadata j)
     (config j) (task_id j).
Definition set_progress v (j : t) : t :=
  mk (id j) (video_id j) (status j) v (start_time j) (end_time j)
     (error_message j) (error_details j) (stage_progress j) (metadata j)
     (config j) (task_id j).
Definition set_start_time v (j : t) : t :=
  mk (id j) (video_id j) (status j) (progress j) v (end_time j)
     (error_message j) (error_details j) (stage_progress j) (metadata j)
     (config j) (task_id j).
Definition set_end_time v (j : t) : t :=
  mk (id j) (video_id j) (status j) (progress j) (start_time j) v
     (error_message j) (error_details j) (stage_progress j) (metadata j)
     (config j) (task_id j).
Definition set_error_message v (j : t) : t :=
  mk (id j) (video_id j) (status j) (progress j) (start_time j) (end_time j)
     v (error_details j) (stage_progress j) (metadata j)
     (config j) (task_id j).
Definition set_error_details v (j : t) : t :=
  mk (id j) (video_id j) (status j) (progress j) (start_time j) (end_time j)
     (error_message j) v (stage_progress j) (metadata j)
     (config j) (task_id j).
Definition set_stage_progress v (j : t) : t :=
  mk (id j) (video_id j) (status j) (progress j) (start_time j) (end_time j)
     (error_message j) (error_details j) v (metadata j)
     (config j) (task_id j).
Definition set_metadata v (j : t) : t :=
  mk (id j) (video_id j) (status j) (progress j) (start_time j) (end_time j)
     (error_message j) (error_details j) (stage_progress j) v
     (config j) (task_id j).
Definition set_task_id v (j : t) : t :=
  mk (id j) (video_id j) (status j) (progress j) (start_time j) (end_time j)
     (error_message j) (error_details j) (stage_progress j) (metadata j)
     (config j) v.

(** The metadata dictionary installed by [__init__]. *)
Definition initial_metadata : gmap string json :=
  list_to_map
    [ ("asr_duration", JNull);
      ("transcript_length", JNull);
      ("chapters_generated", JNull);
      ("llm_inference_time", JNull);
      ("model_used", JNull);
      ("processing_errors", JArr []) ].

(** [ProcessingJob(video_id=..., config=...)] once saved: [__init__] fills
    the two dictionaries, the column defaults give the stage and the
    progress, [new_id] is the primary key drawn for the row. *)
Definition create (new_id video : string) (cfg : options) : t :=
  {| id := new_id;
     video_id := video;
     status := UPLOADING;
     progress := 0;
     start_time := None;
     end_time := None;
     error_message := None;
     error_details := JNull;
     stage_progress := Some zero_stage_progress;
     metadata := Some initial_metadata;
     config := Some cfg;
     task_id := None |}.

(** [is_complete] *)
Definition is_complete (self : t) : bool := terminal (status self).

(** [is_processing] *)
Definition is_processing (self : t) : bool :=
  negb (bool_decide (status self = UPLOADING)
        || bool_decide (status self = COMPLETE)
        || bool_decide (status self = ERROR)).

(** [update_progress(stage, progress, stage_progress, metadata)];
    [now] is the clock read of the completion branch. *)
Definition update_progress
    (stage : option ProcessingStage.t) (progress_arg : option Q)
    (stage_progress_arg : option (gmap string Q))
    (metadata_arg : option (gmap string json))
    (now : datetime) (self : t) : t :=
  let self :=
    match stage with
    | Some s => set_status s self
    | None => self
    end in
  let self :=
    match progress_arg with
    | Some p => set_progress (py_min 100 (py_max 0 p)) self
    | None => self
    end in
  let self :=
    match stage_progress_arg with
    | Some d =>
        if dict_truthy (Some d)
        then set_stage_progress
               (Some (d ∪ (if dict_truthy (stage_progress self)
                           then default ∅ (stage_progress self) else ∅))) self
        else self
    | None => self
    end in
  let self :=
    match metadata_arg with
    | Some d =>
        if dict_truthy (Some d)
        then set_metadata
               (Some (d ∪ (if dict_truthy (metadata self)
                           then default ∅ (metadata self) else ∅))) self
        else self
    | None => self
    end in
  if Qle_bool 100 (progress self) && negb (bool_decide (status self = ERROR))
  then
    let self := set_status COMPLETE self in
    match end_time self with
    | None => set_end_time (Some now) self
    | Some _ => self
    end
  else self.

(** The entry appended to [metadata['processing_errors']]. *)
Definition error_entry (t_entry : datetime) (stage_value error_message : string)
    (error_details : json) : json :=
  JObj [ ("timestamp", JIso t_entry);
         ("stage", JStr stage_value);
         ("message", JStr error_message);
         ("details", error_details) ].

(** [mark_error(error_message, error_details=None)].

    The name [datetime] is a local of the method: its only binding is the
    [from datetime import datetime] inside [if not self.end_time:].  The
    flag [datetime_bound] records whether that branch ran; the later
    [datetime.utcnow()] reads the local and raises [UnboundLocalError]
    when it did not.  [t_end] and [t_entry] are the two clock reads.  The
    callee [self.metadata['processing_errors'].append] is looked up before
    its argument is evaluated. *)
Definition mark_error (error_message_arg : string) (error_details_arg : json)
    (t_end t_entry : datetime) (self : t) : t * result unit :=
  let self := set_status ERROR self in
  let self := set_error_message (Some error_message_arg) self in
  let self := set_error_details error_details_arg self in
  let '(self, datetime_bound) :=
    match end_time self with
    | None => (set_end_time (Some t_end) self, true)
    | Some _ => (self, false)
    end in
  let self :=
    if dict_truthy (metadata self) then self else set_metadata (Some ∅) self in
  let md := default ∅ (metadata self) in
  let md :=
    match md !! "processing_errors" with
    | None => <["processing_errors" := JArr []]> md
    | Some _ => md
    end in
  let self := set_metadata (Some md) self in
  match md !! "processing_errors" with
  | Some (JArr l) =>
      if datetime_bound
      then
        let entry :=
          error_entry t_entry (value (status self)) error_message_arg
                      error_details_arg in
        (set_metadata (Some (<["processing_errors" := JArr (l ++ [entry])]> md)) self,
         Ok tt)
      else (self, Raise (UnboundLocalError "datetime"))
  | _ => (self, Raise (AttributeError "processing_errors" "append"))
  end.

(** [mark_complete(chapters_generated=None)] *)
Definition mark_complete (chapters_generated : option Z) (now : datetime)
    (self : t) : t :=
  let self := set_status COMPLETE self in
  let self := set_progress 100 self in
  let self :=
    match end_time self with
    | None => set_end_time (Some now) self
    | Some _ => self
    end in
  match chapters_generated with
  | Some n =>
      if dict_truthy (metadata self)
      then set_metadata
             (Some (<["chapters_generated" := JInt n]> (default ∅ (metadata self))))
             self
      else self
  | None => self
  end.

(** The error history of a job: the list under
    [metadata['processing_errors']]. *)
Definition processing_errors (self : t) : option (list json) :=
  match metadata self with
  | Some md =>
      match md !! "processing_errors" with
      | Some (JArr l) => Some l
      | _ => None
      end
  | None => None
  end.

(** [timedelta.total_seconds()]: instants count microseconds. *)
Definition total_seconds (d : Z) : Q := d # 1000000.

(** [time_elapsed]; [now] is the clock read used when the job has no end
    time. *)
Definition time_elapsed (now : datetime) (self : t) : Q :=
  match start_time self with
  | None => 0
  | Some started =>
      let ended := default now (end_time self) in
      total_seconds (ended - started)
  end.

(** [estimate_remaining_time()]: [None] or a number of seconds, computed
    on floats; [total_seconds()] is the true division of the microseconds
    by [10**6], and [int] raises on a float that is not finite. *)
Definition estimate_remaining_time (now : datetime) (self : t) : result (option Z) :=
  if Qle_bool (progress self) 0 || negb (bool_decide (is_Some (start_time self)))
  then Ok None
  else
    let elapsed := float_of_Q (time_elapsed now self) in
    if float_le elapsed (float_of_Q 0) then Ok None
    else
      let estimated_total_time :=
        float_mul elapsed (float_div (float_of_Q 100) (float_of_Q (progress self))) in
      let remaining_time := float_sub estimated_total_time elapsed in
      match float_int remaining_time with
      | Ok seconds => Ok (Some (if (0 <? seconds)%Z then seconds else 0%Z))
      | Raise e => Raise e
      end.

(** [get_progress_percentage(stage=None)] *)
Definition get_progress_percentage (stage : option ProcessingStage.t) (self : t) : Q :=
  match stage with
  | Some s =>
      if dict_truthy (stage_progress self)
      then default 0%Q (default ∅ (stage_progress self) !! value s)
      else progress self
  | None => progress self
  end.

End ProcessingJob.

(** ** [class Video(BaseModel)] *)

Module Video.

(** The values of the [processing_status] enum column. *)
Inductive processing_status_t := pending | processing | completed | failed.

Record t := mk {
  id : string;
  duration : option Q;            (* seconds, nullable *)
  processing_status : processing_status_t
}.

Definition set_processing_status v (x : t) : t := mk (id x) (duration x) v.

(** The names bound on a [Video] object: the columns and relationships of
    the class, its methods, and those of [BaseModel] and [db.Model]. *)
Definition attributes : list string :=
  [ "__tablename__"; "filename"; "original_name"; "size"; "duration"; "format";
    "mime_type"; "path"; "processing_status"; "thumbnail_path"; "video_metadata";
    "chapters"; "processing_jobs"; "__init__"; "get_by_filename"; "get_recent";
    "get_by_status"; "get_chapters_count"; "get_duration_formatted";
    "get_size_formatted"; "to_dict"; "__repr__";
    "id"; "created_at"; "updated_at"; "save"; "delete"; "get_by_id"; "get_all";
    "query" ].

(** Attribute access [video.<name>]: whether the name is bound. *)
Definition getattr (name : string) : result unit :=
  if existsb (String.eqb name) attributes
  then Ok tt
  else Raise (AttributeError "Video" name).

(** [get_duration_formatted()] *)
Definition get_duration_formatted (self : t) : string :=
  match duration self with
  | None => "Unknown"
  | Some d =>
      if Qeq_bool d 0 then "Unknown"
      else
        let '(hours, minutes, seconds) := hours_minutes_secs d in
        if (0 <? hours)%Z
        then pad2 hours +:+ ":" +:+ pad2 minutes +:+ ":" +:+ pad2 seconds
        else pad2 minutes +:+ ":" +:+ pad2 seconds
  end.

End Video.

(** ** Stable sorting, as [sorted(xs, key=...)] and [ORDER BY] *)

Section Sorting.
Context {A : Type} (before : A -> A -> bool).

(** [x] goes in front of the first element it may precede. *)
Fixpoint insert_by (x : A) (l : list A) : list A :=
  match l with
  | [] => [x]
  | y :: l' => if before x y then x :: y :: l' else y :: insert_by x l'
  end.

Definition sort_by (l : list A) : list A := foldr insert_by [] l.
End Sorting.

(** [sorted(xs, key=k)]: ascending and stable. *)
Definition sorted_asc {A} (k : A -> Q) (l : list A) : list A :=
  sort_by (fun x y => Qle_bool (k x) (k y)) l.

(** [sorted(xs, key=k, reverse=True)]: descending, equal keys keep their order. *)
Definition sorted_desc {A} (k : A -> Q) (l : list A) : list A :=
  sort_by (fun x y => Qle_bool (k y) (k x)) l.

(** ** [class Chapter(BaseModel)] and the chapter table *)

Module Chapter.

Record t := mk {
  id : nat;                       (* primary key: position of insertion *)
  video_id : string;
  title : string;
  start_time : Q;
  end_time : option Q;
  confidence : Q;
  is_ai_generated : bool;
  order : nat
}.

Definition set_end_time v (c : t) : t :=
  mk (id c) (video_id c) (title c) (start_time c) v (confidence c)
     (is_ai_generated c) (order c).
Definition set_order v (c : t) : t :=
  mk (id c) (video_id c) (title c) (start_time c) (end_time c) (confidence c)
     (is_ai_generated c) v.

(** [Chapter.query.filter_by(video_id=...).order_by(Chapter.start_time).all()] *)
Definition get_by_video (video : string) (table : list t) : list t :=
  sorted_asc start_time (filter (fun c => video_id c = video) table).

(** Position of the row with key [k] in a query result. *)
Fixpoint index_of (k : nat) (rows : list t) : option nat :=
  match rows with
  | [] => None
  | c :: rows' => if Nat.eqb (id c) k then Some 0 else S <$> index_of k rows'
  end.

(** [update_order(self)]: every chapter of the video of [self] gets its
    1-based rank by start time. *)
Definition update_order (video : string) (table : list t) : list t :=
  let ranked := get_by_video video table in
  map (fun c =>
         match index_of (id c) ranked with
         | Some i => set_order (S i) c
         | None => c
         end) table.

(** [seconds_to_timestamp(seconds)] *)
Definition seconds_to_timestamp (seconds : option Q) : string :=
  match seconds with
  | None => "00:00:00"
  | Some seconds =>
      let '(hours, minutes, secs) := hours_minutes_secs seconds in
      pad2 hours +:+ ":" +:+ pad2 minutes +:+ ":" +:+ pad2 secs
  end.

(** The property [timestamp] *)
Definition timestamp (self : t) : string := seconds_to_timestamp (Some (start_time self)).

(** The property [duration]: [None] when the end time is missing or zero. *)
Definition duration (self : t) : option Q :=
  match end_time self with
  | Some e => if Qeq_bool e 0 then None else Some (e - start_time self)%Q
  | None => None
  end.

(** The property [duration_formatted] *)
Definition duration_formatted (self : t) : string :=
  match duration self with
  | Some d => if Qeq_bool d 0 then "Unknown" else seconds_to_timestamp (Some d)
  | None => "Unknown"
  end.

End Chapter.

(** ** The world the orchestrator runs in

    The session's model objects (rows by primary key), the task queue, the
    notifications emitted so far, and the two sources the code draws from:
    the clock and the generator of fresh identifiers. *)

Record task := mk_task {
  task_video_id : string;
  task_job_id : string;
  task_options : option options
}.

Inductive event :=
| socket_emit (name room : string)                (* [socketio.emit(name, ..., room=room)] *)
| task_state (progress : Q) (message : string).   (* celery [update_state] *)

(** [ModelManager.device] *)
Inductive device_t := cuda | mps | cpu.

Record World := mk_world {
  videos : gmap string Video.t;
  jobs : gmap string ProcessingJob.t;
  chapter_table : list Chapter.t;
  queue : list task;
  emitted : list event;
  clock : nat -> datetime;          (* the n-th [datetime.utcnow()] *)
  ticks : nat;                      (* clock reads so far *)
  uuid4 : nat -> string;            (* the n-th identifier drawn *)
  drawn : nat;                      (* identifiers drawn so far *)
  str_exn : exn -> string;          (* the interpreter's [str(e)] *)
  device : device_t
}.

Definition set_videos v (w : World) : World :=
  mk_world v (jobs w) (chapter_table w) (queue w) (emitted w) (clock w) (ticks w)
           (uuid4 w) (drawn w) (str_exn w) (device w).
Definition set_jobs v (w : World) : World :=
  mk_world (videos w) v (chapter_table w) (queue w) (emitted w) (clock w) (ticks w)
           (uuid4 w) (drawn w) (str_exn w) (device w).
Definition set_chapters v (w : World) : World :=
  mk_world (videos w) (jobs w) v (queue w) (emitted w) (clock w) (ticks w)
           (uuid4 w) (drawn w) (str_exn w) (device w).
Definition set_queue v (w : World) : World :=
  mk_world (videos w) (jobs w) (chapter_table w) v (emitted w) (clock w) (ticks w)
           (uuid4 w) (drawn w) (str_exn w) (device w).
Definition set_emitted v (w : World) : World :=
  mk_world (videos w) (jobs w) (chapter_table w) (queue w) v (clock w) (ticks w)
           (uuid4 w) (drawn w) (str_exn w) (device w).
Definition set_ticks v (w : World) : World :=
  mk_world (videos w) (jobs w) (chapter_table w) (queue w) (emitted w) (clock w) v
           (uuid4 w) (drawn w) (str_exn w) (device w).
Definition set_drawn v (w : World) : World :=
  mk_world (videos w) (jobs w) (chapter_table w) (queue w) (emitted w) (clock w)
           (ticks w) (uuid4 w) v (str_exn w) (device w).

(** Computations that read and write the world and may raise. *)
Definition M (A : Type) : Type := World -> World * result A.

Definition ret {A} (a : A) : M A := fun w => (w, Ok a).
Definition raise {A} (e : exn) : M A := fun w => (w, Raise e).
Definition bind {A B} (m : M A) (k : A -> M B) : M B :=
  fun w =>
    match m w with
    | (w', Ok a) => k a w'
    | (w', Raise e) => (w', Raise e)
    end.
(** [try: body  except Exception as e: handler(e)] *)
Definition try_except {A} (body : M A) (handler : exn -> M A) : M A :=
  fun w =>
    match body w with
    | (w', Ok a) => (w', Ok a)
    | (w', Raise e) => handler e w'
    end.
(** A step that cannot raise. *)
Definition step (f : World -> World) : M unit := fun w => (f w, Ok tt).
Definition lift {A} (r : result A) : M A := fun w => (w, r).

Notation "'let*' x := m 'in' k" := (bind m (fun x => k))
  (at level 10, x name, m at level 100, k at level 200).
Notation "m ;; k" := (bind m (fun _ => k))
  (at level 100, k at level 200, right associativity).

(** [datetime.utcnow()] *)
Definition utcnow : M datetime :=
  fun w => (set_ticks (S (ticks w)) w, Ok (clock w (ticks w))).

(** A fresh [uuid4] string. *)
Definition fresh_id : M string :=
  fun w => (set_drawn (S (drawn w)) w, Ok (uuid4 w (drawn w))).

(** [Video.get_by_id], [ProcessingJob.get_by_id] *)
Definition Video_get_by_id (k : string) : M (option Video.t) :=
  fun w => (w, Ok (videos w !! k)).
Definition ProcessingJob_get_by_id (k : string) : M (option ProcessingJob.t) :=
  fun w => (w, Ok (jobs w !! k)).

(** Assignments to the attributes of a model object held by the session. *)
Definition modify_job (k : string) (f : ProcessingJob.t -> ProcessingJob.t) : M unit :=
  step (fun w => set_jobs (alter f k (jobs w)) w).
Definition modify_video (k : string) (f : Video.t -> Video.t) : M unit :=
  step (fun w => set_videos (alter f k (videos w)) w).

(** [emit] on the notification channel. *)
Definition emit (e : event) : M unit :=
  step (fun w => set_emitted (emitted w ++ [e]) w).

(** A progress callback: [progress_callback(progress, message)]. *)
Definition callback := Q -> string -> World -> World.

Definition call (cb : option callback) (progress : Q) (message : string) : M unit :=
  match cb with
  | Some f => step (f progress message)
  | None => ret tt
  end.

(** ** [class LLMProcessor] *)

Module LLMProcessor.

(** A candidate chapter: the dictionary with keys ['start_time'],
    ['title'] and ['confidence']. *)
Record candidate := mk {
  start_time : Q;
  title : string;
  confidence : Q
}.

(** The model behind the processor.  [load_model] is [self._get_model()];
    [attempt i] is pass [i] of the retry loop body, from the chat template
    through [model.generate] to [_parse_chapter_response] (which catches
    every exception of its own): either the adapter raises or the parser
    returns a list of candidates, possibly empty. *)
Record adapter := mk_adapter {
  load_model : result unit;
  attempt : nat -> result (list candidate)
}.

(** [_create_fallback_chapters(num_chapters, min_chapter_length)] *)
Definition _create_fallback_chapters (num_chapters : Z) (min_chapter_length : Q)
    : list candidate :=
  (fun i : nat =>
     {| start_time := inject_Z (Z.of_nat i) * min_chapter_length;
        title := "Chapter " +:+ str_of_nat (i + 1);
        confidence := 1 # 2 |})
  <$> seq 0 (Z.to_nat num_chapters).

(** The [for attempt in range(max_retries)] loop over the attempts still to
    run; [None] when the loop falls through. *)
Fixpoint retry_loop (a : adapter) (max_retries : nat) (attempts : list nat)
    : option (result (list candidate)) :=
  match attempts with
  | [] => None
  | i :: rest =>
      match attempt a i with
      | Ok chapters =>
          match chapters with
          | _ :: _ => Some (Ok chapters)
          | [] => retry_loop a max_retries rest
          end
      | Raise e =>
          if Nat.eqb i (max_retries - 1)
          then Some (Raise e)
          else retry_loop a max_retries rest
      end
  end.

(** [_generate_with_retry(..., max_chapters, min_chapter_length, max_retries=3)] *)
Definition _generate_with_retry (a : adapter) (max_chapters : Z)
    (min_chapter_length : Q) (max_retries : nat) : result (list candidate) :=
  match retry_loop a max_retries (seq 0 max_retries) with
  | Some r => r
  | None => Ok (_create_fallback_chapters max_chapters min_chapter_length)
  end.

Definition introduction : candidate :=
  {| start_time := 0; title := "Introduction"; confidence := 4 # 5 |}.

(** One iteration of the merge loop at index [i]: [filtered_chapters]
    after the iteration.  [filtered_chapters[-1]] is [last filtered]; it
    exists whenever [i > 0] (lemma [merge_from_nonempty]).  [time_diff] is
    the difference of the two floats as the subtraction rounds it. *)
Definition merge_step (min_chapter_length : Q) (i : nat) (chapter : candidate)
    (filtered : list candidate) : list candidate :=
  if Nat.eqb i 0 then filtered ++ [chapter]
  else
    match last filtered with
    | Some prev =>
        let time_diff :=
          float_sub (float_of_Q (start_time chapter)) (float_of_Q (start_time prev)) in
        if float_ge time_diff (float_of_Q min_chapter_length)
        then filtered ++ [chapter]
        else if Qltb (confidence prev) (confidence chapter)
             then <[Nat.pred (length filtered) := chapter]> filtered
             else filtered
    | None => filtered
    end.

(** [for i, chapter in enumerate(chapters)], from index [i] on. *)
Fixpoint merge_from (min_chapter_length : Q) (i : nat) (chapters : list candidate)
    (filtered : list candidate) : list candidate :=
  match chapters with
  | [] => filtered
  | chapter :: rest =>
      merge_from min_chapter_length (S i) rest
                 (merge_step min_chapter_length i chapter filtered)
  end.

Definition merge_close_chapters (min_chapter_length : Q) (chapters : list candidate)
    : list candidate :=
  merge_from min_chapter_length 0 chapters [].

(** [_validate_and_process_chapters(chapters, video_duration, min_chapter_length)] *)
Definition _validate_and_process_chapters (chapters : list candidate)
    (video_duration min_chapter_length : Q) : list candidate :=
  match chapters with
  | [] => _create_fallback_chapters 5 min_chapter_length
  | _ :: _ =>
      let chapters := sorted_asc start_time chapters in
      let chapters :=
        match chapters with
        | first :: _ =>
            if Qltb 0 (start_time first) then introduction :: chapters else chapters
        | [] => chapters
        end in
      let chapters :=
        List.filter (fun ch => Qltb (start_time ch) video_duration) chapters in
      let filtered_chapters := merge_close_chapters min_chapter_length chapters in
      if Nat.ltb 15 (length filtered_chapters)
      then sorted_asc start_time (take 15 (sorted_desc confidence filtered_chapters))
      else filtered_chapters
  end.

(** [generate_chapters(transcript, video_duration, segment_count,
      max_chapters=15, min_chapter_length=30.0, progress_callback=None)].
    The transcript and the segment count only feed the prompt text and are
    left out; a missing duration fails when the prompt is formatted.  The
    [except Exception: raise] around the body re-raises unchanged. *)
Definition generate_chapters (a : adapter) (video_duration : option Q)
    (max_chapters : Z) (min_chapter_length : Q)
    (progress_callback : option callback) : M (list candidate) :=
  call progress_callback 10 "Loading language model" ;;
  lift (load_model a) ;;
  call progress_callback 30 "Preparing chapter generation prompt" ;;
  match video_duration with
  | None => raise (TypeError "unsupported operand type(s) for //")
  | Some video_duration =>
      call progress_callback 50 "Generating chapters with AI model" ;;
      let* chapters :=
        lift (_generate_with_retry a max_chapters min_chapter_length 3) in
      call progress_callback 80 "Processing generated chapters" ;;
      let validated_chapters :=
        _validate_and_process_chapters chapters video_duration min_chapter_length in
      call progress_callback 100
           ("Generated " +:+ str_of_nat (length validated_chapters) +:+ " chapters") ;;
      ret validated_chapters
  end.

(** [_format_duration(seconds)] *)
Definition _format_duration (seconds : Q) : string :=
  let '(hours, minutes, secs) := hours_minutes_secs seconds in
  if (0 <? hours)%Z
  then str_of_Z hours +:+ "h " +:+ str_of_Z minutes +:+ "m " +:+ str_of_Z secs +:+ "s"
  else if (0 <? minutes)%Z
       then str_of_Z minutes +:+ "m " +:+ str_of_Z secs +:+ "s"
       else str_of_Z secs +:+ "s".

(** [get_generation_statistics(chapters)]: the dictionary returned, [{}]
    for no chapters.  The average is the float the sum and the division
    round to, with [sum] adding from left to right (interpreters from
    version 3.12 on compensate the rounding error of [sum]). *)
Definition get_generation_statistics (chapters : list candidate) : list (string * json) :=
  match confidence <$> chapters with
  | [] => []
  | c :: cs =>
      let confidences := c :: cs in
      [ ("total_chapters", JInt (Z.of_nat (length chapters)));
        ("average_confidence",
         JDouble (float_div (float_sum confidences)
                            (float_of_Q (inject_Z (Z.of_nat (length confidences))))));
        ("min_confidence", JFloat (py_min_of c cs));
        ("max_confidence", JFloat (py_max_of c cs));
        ("high_confidence_chapters",
         JInt (Z.of_nat (length (List.filter (fun x => Qle_bool (4 # 5) x) confidences))));
        ("low_confidence_chapters",
         JInt (Z.of_nat (length (List.filter (fun x => Qltb x (6 # 10)) confidences)))) ]
  end.

End LLMProcessor.

(** ** Model methods and notifications, run against the world *)

Definition run (m : M unit) : World -> World := fun w => fst (m w).

(** [job.update_progress(...)] on the session's object with key [k]. *)
Definition job_update_progress (k : string) (stage : option ProcessingStage.t)
    (progress : option Q) (stage_progress : option (gmap string Q))
    (metadata : option (gmap string json)) : M unit :=
  let* now := utcnow in
  modify_job k (ProcessingJob.update_progress stage progress stage_progress metadata now).

(** [job.mark_error(...)]: the object keeps what was assigned before a raise. *)
Definition job_mark_error (k : string) (error_message : string) (error_details : json)
    : M unit :=
  let* t_end := utcnow in
  let* t_entry := utcnow in
  fun w =>
    match jobs w !! k with
    | Some j =>
        let '(j', r) := ProcessingJob.mark_error error_message error_details t_end t_entry j in
        (set_jobs (<[k := j']> (jobs w)) w, r)
    | None => (w, Ok tt)
    end.

(** [ProcessingJob.get_active_jobs()] *)
Definition ProcessingJob_get_active_jobs : M (list ProcessingJob.t) :=
  fun w =>
    (w, Ok (List.filter (fun j => negb (ProcessingJob.is_complete j))
                        (snd <$> map_to_list (jobs w)))).

(** [notify_job_update(job)] of [routes/websocket_events.py] *)
Definition notify_job_update (k : string) : M unit :=
  let* job := ProcessingJob_get_by_id k in
  match job with
  | None => ret tt
  | Some job =>
      let* video := Video_get_by_id (ProcessingJob.video_id job) in
      let to_video (name : string) : M unit :=
        match video with
        | Some v => emit (socket_emit name ("video_" +:+ Video.id v))
        | None => ret tt
        end in
      let value := ProcessingStage.value (ProcessingJob.status job) in
      if ProcessingJob.is_complete job && String.eqb value "complete"
      then emit (socket_emit "job_complete" ("job_" +:+ k)) ;;
           to_video "video_job_complete"
      else if String.eqb value "error"
      then emit (socket_emit "job_error" ("job_" +:+ k)) ;;
           to_video "video_job_error"
      else emit (socket_emit "job_progress" ("job_" +:+ k)) ;;
           to_video "video_job_update"
  end.

(** [notify_stage_change(job, old_stage)] *)
Definition notify_stage_change (k : string) (old_stage : ProcessingStage.t) : M unit :=
  let* job := ProcessingJob_get_by_id k in
  match job with
  | None => ret tt
  | Some job =>
      let* video := Video_get_by_id (ProcessingJob.video_id job) in
      emit (socket_emit "job_stage_change" ("job_" +:+ k)) ;;
      match video with
      | Some v => emit (socket_emit "video_job_stage_change" ("video_" +:+ Video.id v))
      | None => ret tt
      end
  end.

(** ** [class ASRProcessor] *)

Module ASRProcessor.

(** A transcript segment: start, end, text and the number of its words. *)
Record segment := mk_segment {
  seg_start : Q;
  seg_end : Q;
  seg_text : string;
  seg_words : nat
}.

(** [_format_timestamp(seconds)] *)
Definition _format_timestamp (seconds : Q) : string :=
  let '(hours, minutes, secs) := hours_minutes_secs seconds in
  pad2 hours +:+ ":" +:+ pad2 minutes +:+ ":" +:+ pad2 secs.

(** [adjusted_progress] of the wrapper inside [transcribe_video]: maps the
    transcription progress to 20-100%. *)
Definition transcribe_adjusted (progress : Q) : Q := 20 + progress * (8 # 10).

(** The closure [transcribe_progress_callback(progress, message)]. *)
Definition transcribe_progress_callback (progress_callback : option callback) : callback :=
  fun progress message =>
    let adjusted_progress := transcribe_adjusted progress in
    run (call progress_callback adjusted_progress message).

(** [transcribe_video(video_path, language, initial_prompt,
      progress_callback, keep_audio)] over the two steps it drives, taken as
    given: [extract_audio] is [extract_audio_from_video(video_path)] and
    [transcribe_audio] is the method of that name, which reports through the
    callback it receives.  The [except] re-raises; the [finally] only
    removes the temporary audio file. *)
Definition transcribe_video
    (extract_audio : M string)
    (transcribe_audio : string -> callback -> M (list segment))
    (progress_callback : option callback) : M (list segment) :=
  call progress_callback 10 "Extracting audio from video" ;;
  let* audio_path := extract_audio in
  call progress_callback 20 "Starting transcription" ;;
  let* segments :=
    transcribe_audio audio_path (transcribe_progress_callback progress_callback) in
  call progress_callback 100 "Transcription completed" ;;
  ret segments.

End ASRProcessor.

(** ** [class ChapterProcessor] *)

Module ChapterProcessor.

Record config_t := mk_config {
  min_chapter_length : Q;
  max_chapters : Z;
  transcription_language : option string;
  initial_prompt : option string
}.

(** [self.config] as set by [__init__]. *)
Definition default_config : config_t := mk_config 30 15 None None.

(** [config.update(overrides)] *)
Definition config_update (o : options) (c : config_t) : config_t :=
  mk_config
    (default (min_chapter_length c) (opt_min_chapter_length o))
    (default (max_chapters c) (opt_max_chapters o))
    (match opt_transcription_language o with
     | Some l => Some l
     | None => transcription_language c
     end)
    (match opt_initial_prompt o with
     | Some p => Some p
     | None => initial_prompt c
     end).

(** [update_config(new_config)] on options typed as above, for which the
    two [isinstance] tests hold; what is left of each test is the
    comparison with 0. *)
Definition update_config (new_config : options) (c : config_t) : result config_t :=
  match opt_min_chapter_length new_config with
  | Some v =>
      if Qle_bool v 0
      then Raise (ValueError "min_chapter_length must be a positive number")
      else
        match opt_max_chapters new_config with
        | Some n =>
            if (n <=? 0)%Z
            then Raise (ValueError "max_chapters must be a positive integer")
            else Ok (config_update new_config c)
        | None => Ok (config_update new_config c)
        end
  | None =>
      match opt_max_chapters new_config with
      | Some n =>
          if (n <=? 0)%Z
          then Raise (ValueError "max_chapters must be a positive integer")
          else Ok (config_update new_config c)
      | None => Ok (config_update new_config c)
      end
  end.

(** [adjusted_progress] of the transcription wrapper: maps to 0-50%. *)
Definition transcription_adjusted (progress : Q) : Q := (progress / 100) * 50.

(** [adjusted_progress] of the chapter generation wrapper: maps to 50-85%. *)
Definition chapter_adjusted (progress : Q) : Q := 50 + (progress / 100) * 35.

(** The closure [transcription_progress(progress, message)] of
    [_transcribe_video], over [progress_callback] and [job]. *)
Definition transcription_progress (progress_callback : option callback)
    (job : option string) : callback :=
  fun progress message =>
    let adjusted_progress := transcription_adjusted progress in
    run (call progress_callback adjusted_progress ("Transcription: " +:+ message) ;;
         match job with
         | Some k =>
             job_update_progress k None (Some adjusted_progress) None
               (Some (list_to_map [("step", JStr "transcription");
                                   ("substep", JStr message)]))
         | None => ret tt
         end).

(** The closure [chapter_progress(progress, message)] of
    [_generate_chapters]. *)
Definition chapter_progress (progress_callback : option callback)
    (job : option string) : callback :=
  fun progress message =>
    let adjusted_progress := chapter_adjusted progress in
    run (call progress_callback adjusted_progress ("Chapter Generation: " +:+ message) ;;
         match job with
         | Some k =>
             job_update_progress k None (Some adjusted_progress) None
               (Some (list_to_map [("step", JStr "chapter_generation");
                                   ("substep", JStr message)]))
         | None => ret tt
         end).

(** [_generate_chapters(transcript_segments, video, config,
      progress_callback, job)]; the formatted transcript only feeds the
    prompt text. *)
Definition _generate_chapters (llm : LLMProcessor.adapter) (video : Video.t)
    (config : config_t) (progress_callback : option callback)
    (job : option string) : M (list LLMProcessor.candidate) :=
  let* chapters :=
    LLMProcessor.generate_chapters llm (Video.duration video)
      (max_chapters config) (min_chapter_length config)
      (Some (chapter_progress progress_callback job)) in
  match job with
  | Some k =>
      job_update_progress k None (Some 85%Q) None
        (Some (list_to_map
                 [("step", JStr "chapter_generation_complete");
                  ("generation_stats",
                   JObj (LLMProcessor.get_generation_statistics chapters))]))
  | None => ret tt
  end ;;
  ret chapters.

(** One iteration of the loop of [_save_chapters]: build the row, set its
    end time from the next candidate, save it, report progress. *)
Definition save_one (video_id : string) (chapters : list LLMProcessor.candidate)
    (progress_callback : option callback) (i : nat)
    (chapter_data : LLMProcessor.candidate) : M nat :=
  let* k := (fun w => (w, Ok (length (chapter_table w)))) in
  let chapter :=
    Chapter.mk k video_id (LLMProcessor.title chapter_data)
               (LLMProcessor.start_time chapter_data) None
               (LLMProcessor.confidence chapter_data) true (i + 1) in
  let chapter :=
    if Nat.ltb i (length chapters - 1)
    then Chapter.set_end_time (LLMProcessor.start_time <$> chapters !! (i + 1)) chapter
    else chapter in
  step (fun w => set_chapters (chapter_table w ++ [chapter]) w) ;;
  call progress_callback
       (90 + (inject_Z (Z.of_nat (i + 1)) / inject_Z (Z.of_nat (length chapters))) * 8)%Q
       ("Saved chapter " +:+ str_of_nat (i + 1) +:+ "/" +:+ str_of_nat (length chapters)) ;;
  ret k.

Fixpoint save_loop (video_id : string) (chapters : list LLMProcessor.candidate)
    (progress_callback : option callback) (i : nat)
    (todo : list LLMProcessor.candidate) : M (list nat) :=
  match todo with
  | [] => ret []
  | chapter_data :: rest =>
      let* k := save_one video_id chapters progress_callback i chapter_data in
      let* ks := save_loop video_id chapters progress_callback (S i) rest in
      ret (k :: ks)
  end.

(** [_save_chapters(chapters, video_id, progress_callback)]: the saved
    rows as they stand when the method returns. *)
Definition _save_chapters (chapters : list LLMProcessor.candidate)
    (video_id : string) (progress_callback : option callback) : M (list Chapter.t) :=
  let* saved_chapters := save_loop video_id chapters progress_callback 0 chapters in
  step (fun w =>
          set_chapters
            (foldr (fun _ table => Chapter.update_order video_id table)
                   (chapter_table w) saved_chapters) w) ;;
  fun w =>
    (w, Ok (omap (fun k => List.find (fun c => Nat.eqb (Chapter.id c) k)
                                     (chapter_table w))
                 saved_chapters)).

(** [estimate_processing_time(video)]: transcription, chapter generation,
    saving and total, in seconds. *)
Definition estimate_processing_time (dev : device_t) (video : Video.t)
    : result (Q * Q * Q * Q) :=
  match Video.duration video with
  | None => Raise (TypeError "unsupported operand type(s) for *")
  | Some d =>
      let base_transcription_time := (d * (3 # 10))%Q in
      let base_chapter_generation_time := 60%Q in
      let base_saving_time := 10%Q in
      let '(transcription_multiplier, generation_multiplier) :=
        match dev with
        | cuda => ((1 # 2)%Q, (3 # 10)%Q)
        | mps => ((7 # 10)%Q, (1 # 2)%Q)
        | cpu => (2%Q, 3%Q)
        end in
      Ok ((base_transcription_time * transcription_multiplier)%Q,
          (base_chapter_generation_time * generation_multiplier)%Q,
          base_saving_time,
          (base_transcription_time * transcription_multiplier
           + base_chapter_generation_time * generation_multiplier
           + base_saving_time)%Q)
  end.

(** The transcription engine behind the processor, taken as given:
    [asr_transcribe_video] is [ASRProcessor.transcribe_video] on the file of
    the video, with the language and the prompt of the configuration and the
    callback it reports to; [asr_statistics] is
    [ASRProcessor.get_transcript_statistics]. *)
Record asr := mk_asr {
  asr_transcribe_video :
    Video.t -> option string -> option string -> callback -> M (list ASRProcessor.segment);
  asr_statistics : list ASRProcessor.segment -> json
}.

(** [job.update_progress(stage=job.status, progress=..., metadata=...)] *)
Definition job_checkpoint (job : option ProcessingJob.t) (progress : Q)
    (metadata : gmap string json) : M unit :=
  match job with
  | Some job =>
      let* current := ProcessingJob_get_by_id (ProcessingJob.id job) in
      job_update_progress (ProcessingJob.id job)
        (ProcessingJob.status <$> current) (Some progress) None (Some metadata)
  | None => ret tt
  end.

(** [_transcribe_video(video, config, progress_callback, job)].  The
    argument [video.file_path] is evaluated before the engine is called. *)
Definition _transcribe_video (engine : asr) (video : Video.t) (config : config_t)
    (progress_callback : option callback) (job : option ProcessingJob.t)
    : M (list ASRProcessor.segment) :=
  let job_key := ProcessingJob.id <$> job in
  lift (Video.getattr "file_path") ;;
  let* transcript_segments :=
    asr_transcribe_video engine video (transcription_language config)
      (initial_prompt config) (transcription_progress progress_callback job_key) in
  let transcript_stats := asr_statistics engine transcript_segments in
  match job_key with
  | Some k =>
      job_update_progress k None (Some 50%Q) None
        (Some (list_to_map [("step", JStr "transcription_complete");
                            ("transcript_stats", transcript_stats)]))
  | None => ret tt
  end ;;
  ret transcript_segments.

(** The dictionary [process_video] returns. *)
Record process_result := mk_process_result {
  res_success : bool;
  res_video_id : string;
  res_job_id : option string;
  res_chapters_generated : nat;
  res_chapters : list Chapter.t;
  res_transcript_segments : nat;
  res_processing_time : datetime;
  res_config_used : config_t
}.

(** The [try] body of [process_video] once [video] and [job] are bound. *)
Definition process_video_body (engine : asr) (llm : LLMProcessor.adapter)
    (config : config_t) (video : Video.t) (video_id : string)
    (job_id : option string) (job : option ProcessingJob.t)
    (progress_callback : option callback) (config_overrides : option options)
    : M process_result :=
  let job_key := ProcessingJob.id <$> job in
  let processing_config := config_update (default no_options config_overrides) config in
  call progress_callback 5 "Starting audio transcription" ;;
  job_checkpoint job 5 (list_to_map [("step", JStr "transcription_start")]) ;;
  let* transcript_segments :=
    _transcribe_video engine video processing_config progress_callback job in
  call progress_callback 60 "Generating chapters with AI" ;;
  job_checkpoint job 60 (list_to_map [("step", JStr "chapter_generation_start")]) ;;
  let* chapters :=
    _generate_chapters llm video processing_config progress_callback job_key in
  call progress_callback 90 "Saving chapters to database" ;;
  job_checkpoint job 90 (list_to_map [("step", JStr "saving_chapters")]) ;;
  let* saved_chapters := _save_chapters chapters video_id progress_callback in
  call progress_callback 100 "Processing completed" ;;
  let* finished := utcnow in
  match job_key with
  | Some k =>
      modify_job k (ProcessingJob.mark_complete
                      (Some (Z.of_nat (length saved_chapters))) finished)
  | None => ret tt
  end ;;
  let* processing_time := utcnow in
  ret (mk_process_result true video_id job_id (length saved_chapters) saved_chapters
         (length transcript_segments) processing_time processing_config).

(** The [except Exception as e] handler of [process_video], with [job] bound. *)
Definition process_video_handler (job : option ProcessingJob.t)
    (progress_callback : option callback) (e : exn) : M process_result :=
  let* message := (fun w => (w, Ok ("Processing failed: " +:+ str_exn w e))) in
  match job with
  | Some job => job_mark_error (ProcessingJob.id job) message JNull
  | None => ret tt
  end ;;
  call progress_callback 0 message ;;
  raise e.

(** [process_video(video_id, job_id=None, progress_callback=None,
      config_overrides=None)].  When the video is missing, the [ValueError]
    raised in the [try] reaches the handler before [job] is assigned, and
    the handler's [if job:] raises [UnboundLocalError]. *)
Definition process_video (engine : asr) (llm : LLMProcessor.adapter)
    (config : config_t) (video_id : string) (job_id : option string)
    (progress_callback : option callback) (config_overrides : option options)
    : M process_result :=
  let* video := Video_get_by_id video_id in
  match video with
  | None => raise (UnboundLocalError "job")
  | Some video =>
      let* job :=
        match job_id with
        | Some k => if String.eqb k "" then ret None else ProcessingJob_get_by_id k
        | None => ret None
        end in
      try_except
        (process_video_body engine llm config video video_id job_id job
                            progress_callback config_overrides)
        (process_video_handler job progress_callback)
  end.

End ChapterProcessor.

(** ** [class ProcessingPipeline] and the queue task *)

Module ProcessingPipeline.

Import ProcessingStage.

(** The names bound on [ProcessingJob]: its class body and that of
    [BaseModel], and the [query] of [db.Model]. *)
Definition ProcessingJob_attributes : list string :=
  [ "__tablename__"; "video_id"; "status"; "progress"; "start_time"; "end_time";
    "estimated_time_remaining"; "error_message"; "error_details";
    "stage_progress"; "metadata"; "config"; "__init__"; "is_complete";
    "is_processing"; "time_elapsed"; "current_stage_description";
    "update_progress"; "mark_error"; "mark_complete"; "get_active_jobs";
    "get_by_video"; "get_latest_by_video"; "get_by_status";
    "get_progress_percentage"; "estimate_remaining_time"; "to_dict"; "__repr__";
    "id"; "created_at"; "updated_at"; "save"; "delete"; "get_by_id"; "get_all";
    "query" ].

(** Attribute access [Owner.name] on a class. *)
Definition class_getattr (owner : string) (attributes : list string) (name : string)
    : result unit :=
  if existsb (String.eqb name) attributes
  then Ok tt
  else Raise (AttributeError owner name).

(** [process_video_task.delay(video_id, job_id, options)]: the task joins
    the queue and its handle is returned. *)
Definition delay (video_id job_id : string) (opts : option options) : M string :=
  let* task_handle := fresh_id in
  step (fun w => set_queue (queue w ++ [mk_task video_id job_id opts]) w) ;;
  ret task_handle.

Inductive start_result :=
| already_processing (job_id : string)
| started (job_id task_id video_id : string) (estimated_time : Q * Q * Q * Q).

(** The part of [start_processing] after the lookup of an active job:
    [existing_job] is what the lookup returned. *)
Definition dispatch (existing_job : option ProcessingJob.t) (video : Video.t)
    (video_id : string) (processing_options : option options) : M start_result :=
  match existing_job with
  | Some existing_job => ret (already_processing (ProcessingJob.id existing_job))
  | None =>
      let* job_id := fresh_id in
      let job :=
        ProcessingJob.create job_id video_id
          (default no_options processing_options) in
      step (fun w => set_jobs (<[job_id := job]> (jobs w)) w) ;;
      modify_video video_id (Video.set_processing_status Video.processing) ;;
      let* task_result := delay video_id job_id processing_options in
      modify_job job_id (ProcessingJob.set_task_id (Some task_result)) ;;
      let* estimated_time :=
        (fun w => (w, ChapterProcessor.estimate_processing_time (device w) video)) in
      ret (started job_id task_result video_id estimated_time)
  end.

(** [start_processing(video_id, processing_options=None)].

    [get_active_job_for_video] is what the attribute of that name on
    [ProcessingJob] would run; the attribute is looked up on the class
    first, as the call does. *)
Definition start_processing
    (get_active_job_for_video : string -> M (option ProcessingJob.t))
    (video_id : string) (processing_options : option options) : M start_result :=
  try_except
    (let* video := Video_get_by_id video_id in
     match video with
     | None => raise (ValueError ("Video " +:+ video_id +:+ " not found"))
     | Some video =>
         lift (class_getattr "ProcessingJob" ProcessingJob_attributes
                             "get_active_job_for_video") ;;
         let* existing_job := get_active_job_for_video video_id in
         dispatch existing_job video video_id processing_options
     end)
    (fun e => raise e).

(** [cancel_job(job_id)]; [revoke] is [celery_app.control.revoke(task_id,
    terminate=True)], the queue's control interface taken as given.  The
    attribute [job.task_id] is the one [start_processing] and [restart_job]
    assign on the session's object. *)
Definition cancel_job (revoke : string -> M unit) (job_id : string) : M string :=
  let* job := ProcessingJob_get_by_id job_id in
  match job with
  | None => raise (ValueError ("Job " +:+ job_id +:+ " not found"))
  | Some job =>
      if ProcessingJob.is_complete job
      then raise (ValueError "Cannot cancel completed job")
      else
        try_except
          (match ProcessingJob.task_id job with
           | Some task => if String.eqb task "" then ret tt else revoke task
           | None => ret tt
           end ;;
           job_mark_error job_id "Job cancelled by user" JNull ;;
           let* video := Video_get_by_id (ProcessingJob.video_id job) in
           match video with
           | Some _ =>
               modify_video (ProcessingJob.video_id job)
                            (Video.set_processing_status Video.failed)
           | None => ret tt
           end ;;
           notify_job_update job_id ;;
           ret job_id)
          (fun e => raise e)
  end.

(** The assignments of [restart_job] that reset the job, lines 200-212;
    [now] is the clock read of [job.start_time = datetime.utcnow()]. *)
Definition reset_job (now : datetime) (job : ProcessingJob.t) : ProcessingJob.t :=
  let job := ProcessingJob.set_status UPLOADING job in
  let job := ProcessingJob.set_progress 0 job in
  let job := ProcessingJob.set_error_message None job in
  let job := ProcessingJob.set_error_details JNull job in
  let job := ProcessingJob.set_end_time None job in
  let job := ProcessingJob.set_start_time (Some now) job in
  let job := ProcessingJob.set_task_id None job in
  ProcessingJob.set_stage_progress (Some zero_stage_progress) job.

Record restart_result := restarted {
  restarted_job_id : string;
  restarted_task_id : string
}.

(** [restart_job(job_id)] *)
Definition restart_job (job_id : string) : M restart_result :=
  let* job := ProcessingJob_get_by_id job_id in
  match job with
  | None => raise (ValueError ("Job " +:+ job_id +:+ " not found"))
  | Some job =>
      if negb (String.eqb (value (ProcessingJob.status job)) "error")
      then raise (ValueError "Can only restart failed jobs")
      else
        try_except
          (let* now := utcnow in
           modify_job job_id (reset_job now) ;;
           let* video := Video_get_by_id (ProcessingJob.video_id job) in
           match video with
           | Some _ =>
               modify_video (ProcessingJob.video_id job)
                            (Video.set_processing_status Video.processing)
           | None => ret tt
           end ;;
           let* task_result :=
             delay (ProcessingJob.video_id job) (ProcessingJob.id job)
                   (ProcessingJob.config job) in
           modify_job job_id (ProcessingJob.set_task_id (Some task_result)) ;;
           notify_job_update job_id ;;
           ret (restarted job_id task_result))
          (fun e => raise e)
  end.

(** [bool(processing_options)]: a dictionary with at least one key. *)
Definition options_truthy (o : option options) : bool :=
  match o with
  | None => false
  | Some o =>
      bool_decide (is_Some (opt_min_chapter_length o))
      || bool_decide (is_Some (opt_max_chapters o))
      || bool_decide (is_Some (opt_transcription_language o))
      || bool_decide (is_Some (opt_initial_prompt o))
  end.

(** The closure [progress_callback(progress, message)] of the task; its
    body is wrapped in a [try] that only logs. *)
Definition progress_callback (job_id : string) : callback :=
  fun progress message =>
    run (job_update_progress job_id None (Some progress) None
           (Some (list_to_map [("message", JStr message)])) ;;
         notify_job_update job_id ;;
         emit (task_state progress message)).

Section Task.
(** The result type of [ChapterProcessor.process_video] and the method
    itself, on a processor configured by [update_config]: the pipeline
    behind the task, taken as given. *)
Context {R : Type}.
Variable process_video :
  ChapterProcessor.config_t -> string -> string -> callback -> option options -> M R.

(** The [try] body of [process_video_task], with [job] already fetched. *)
Definition task_body (job : option ProcessingJob.t) (video_id job_id : string)
    (processing_options : option options) : M R :=
  match job with
  | None => raise (ValueError ("Job " +:+ job_id +:+ " not found"))
  | Some job =>
      let old_stage := ProcessingJob.status job in
      let* new_stage := lift (getattr "PROCESSING") in
      modify_job job_id (ProcessingJob.set_status new_stage) ;;
      notify_stage_change job_id old_stage ;;
      let* processor_config :=
        (if options_truthy processing_options
         then lift (ChapterProcessor.update_config
                      (default no_options processing_options)
                      ChapterProcessor.default_config)
         else ret ChapterProcessor.default_config) in
      let* result :=
        process_video processor_config video_id job_id
                      (progress_callback job_id) processing_options in
      let* video := Video_get_by_id video_id in
      match video with
      | Some _ => modify_video video_id (Video.set_processing_status Video.completed)
      | None => ret tt
      end ;;
      ret result
  end.

(** The [except Exception as e] handler of [process_video_task];
    [retries] is [self.request.retries]: [self.retry] sends the task
    again and raises [Retry] while retries remain, and raises the
    cause once they are used up. *)
Definition task_handler (job : option ProcessingJob.t) (video_id job_id : string)
    (retries : nat) (processing_options : option options) (e : exn) : M R :=
  let* error_message := (fun w => (w, Ok ("Processing failed: " +:+ str_exn w e))) in
  let* details := (fun w => (w, Ok (JStr (str_exn w e)))) in
  match job with
  | Some job =>
      job_mark_error (ProcessingJob.id job) error_message details ;;
      let* video := Video_get_by_id video_id in
      match video with
      | Some _ => modify_video video_id (Video.set_processing_status Video.failed)
      | None => ret tt
      end ;;
      notify_job_update (ProcessingJob.id job)
  | None => ret tt
  end ;;
  if Nat.ltb retries 3
  then step (fun w =>
               set_queue (queue w ++ [mk_task video_id job_id processing_options]) w) ;;
       raise (Retry e)
  else raise e.

(** [process_video_task(self, video_id, job_id, processing_options=None)] *)
Definition process_video_task (retries : nat) (video_id job_id : string)
    (processing_options : option options) : M R :=
  let* job := ProcessingJob_get_by_id job_id in
  try_except (task_body job video_id job_id processing_options)
             (task_handler job video_id job_id retries processing_options).
End Task.

End ProcessingPipeline.

(** ** The lookup the dispatcher asks for *)

Module SpecModel.

(** Modelled from the spec: the lookup of "any existing non-terminal job
    for the video" that [start_processing] calls under the name
    [ProcessingJob.get_active_job_for_video]; the class binds no such
    name.  It is the first of the active jobs that belongs to the video. *)
Definition get_active_job_for_video (video_id : string) : M (option ProcessingJob.t) :=
  let* active := ProcessingJob_get_active_jobs in
  ret (head (List.filter (fun j => String.eqb (ProcessingJob.video_id j) video_id)
                         active)).

End SpecModel.

(** ** Concrete data used to exercise the definitions *)

Module Samples.

Import ProcessingStage.

(** A job of video [video-1] in the middle of transcription. *)
Definition running_job : ProcessingJob.t :=
  ProcessingJob.set_start_time (Some 900%Z)
    (ProcessingJob.set_status GENERATING_TRANSCRIPT
       (ProcessingJob.create "job-1" "video-1" no_options)).

(** The same job after a failure at instant 950. *)
Definition failed_job : ProcessingJob.t :=
  fst (ProcessingJob.mark_error "boom" JNull 950%Z 951%Z running_job).

Definition video1 : Video.t := Video.mk "video-1" (Some 3600%Q) Video.processing.

Definition world_with (j : ProcessingJob.t) : World :=
  {| videos := {[ "video-1" := video1 ]};
     jobs := {[ "job-1" := j ]};
     chapter_table := [];
     queue := [];
     emitted := [];
     clock := fun n => (1000 + Z.of_nat n)%Z;
     ticks := 0;
     uuid4 := fun n => "uuid-" +:+ str_of_nat n;
     drawn := 0;
     str_exn := fun _ => "error";
     device := cpu |}.

Definition running_world : World := world_with running_job.
Definition failed_world : World := world_with failed_job.

(** A model whose every generation attempt raises. *)
Definition always_raising : LLMProcessor.adapter :=
  LLMProcessor.mk_adapter (Ok tt) (fun _ => Raise (AdapterError "generation failed")).

(** A model that answers every attempt with text holding no chapter. *)
Definition never_parsing : LLMProcessor.adapter :=
  LLMProcessor.mk_adapter (Ok tt) (fun _ => Ok []).

(** The candidates of the end-to-end scenario. *)
Definition scenario : list LLMProcessor.candidate :=
  [ LLMProcessor.mk 0 "Intro" (9 # 10);
    LLMProcessor.mk 300 "Body" (6 # 10);
    LLMProcessor.mk 320 "Body2" (95 # 100);
    LLMProcessor.mk 2700 "Wrap" (85 # 100) ].

(** Two candidates less than a minimum chapter length apart, the later
    one the more confident. *)
Definition close_pair : list LLMProcessor.candidate :=
  [ LLMProcessor.mk 0 "Opening" (1 # 2);
    LLMProcessor.mk 10 "Topic" (9 # 10) ].

End Samples.

(** * Properties *)

(** ** Floats *)

Lemma Qltb_true (x y : Q) : Qltb x y = true <-> (x < y)%Q.
Proof.
  unfold Qltb. rewrite negb_true_iff. split.
  - intros H. apply Qnot_le_lt. intros Hle.
    apply Qle_bool_iff in Hle. congruence.
  - intros H. destruct (Qle_bool y x) eqn:E; [|reflexivity].
    apply Qle_bool_iff in E. apply Qlt_not_le in H. contradiction.
Qed.

Lemma Qltb_false (x y : Q) : Qltb x y = false <-> (y <= x)%Q.
Proof.
  unfold Qltb. rewrite negb_false_iff. apply Qle_bool_iff.
Qed.

Lemma py_max_bounds (a b : Q) : (a <= py_max a b)%Q /\ (b <= py_max a b)%Q.
Proof.
  unfold py_max. destruct (Qltb a b) eqn:E.
  - apply Qltb_true in E. split; lra.
  - apply Qltb_false in E. split; lra.
Qed.

Lemma py_min_bounds (a b : Q) : (py_min a b <= a)%Q /\ (py_min a b <= b)%Q.
Proof.
  unfold py_min. destruct (Qltb b a) eqn:E.
  - apply Qltb_true in E. split; lra.
  - apply Qltb_false in E. split; lra.
Qed.

(** The clamp of [update_progress] keeps every input inside [0, 100]. *)
Lemma clamp_range (p : Q) : (0 <= py_min 100 (py_max 0 p) <= 100)%Q.
Proof.
  unfold py_min, py_max.
  destruct (Qltb 0 p) eqn:E1.
  - apply Qltb_true in E1. destruct (Qltb p 100) eqn:E2.
    + apply Qltb_true in E2. lra.
    + lra.
  - destruct (Qltb 0 100) eqn:E2; lra.
Qed.

(** Inside the range the clamp stores the very value it is given. *)
Lemma clamp_id (p : Q) : (0 <= p <= 100)%Q -> (py_min 100 (py_max 0 p) == p)%Q.
Proof.
  intros [H0 H1]. unfold py_min, py_max.
  destruct (Qltb 0 p) eqn:E1.
  - destruct (Qltb p 100) eqn:E2; [reflexivity|].
    apply Qltb_false in E2. lra.
  - apply Qltb_false in E1. destruct (Qltb 0 100) eqn:E2.
    + lra.
    + apply Qltb_false in E2. lra.
Qed.

(** ** The job state machine *)

Section JobFacts.
Import ProcessingStage ProcessingJob.

(** What [update_progress] leaves behind when it is given a progress
    value: the clamped value, and the stage and end time on either side of
    the completion check.  [current] is the stage after the optional stage
    assignment. *)
Lemma update_progress_cases stage p sp md now j :
  let j' := update_progress stage (Some p) sp md now j in
  let current := default (status j) stage in
  let stored := py_min 100 (py_max 0 p) in
  progress j' = stored /\
  (Qle_bool 100 stored && negb (bool_decide (current = ERROR)) = true ->
     status j' = COMPLETE /\
     end_time j' = Some (default now (end_time j))) /\
  (Qle_bool 100 stored && negb (bool_decide (current = ERROR)) = false ->
     status j' = current /\ end_time j' = end_time j).
Proof.
  unfold update_progress.
  match goal with
  | |- context [Qle_bool 100 (progress ?x)] => set (j4 := x)
  end.
  assert (Hp : progress j4 = py_min 100 (py_max 0 p)).
  { subst j4. destruct stage, sp as [sp|], md as [md|];
      repeat match goal with
             | |- context [dict_truthy (Some ?d)] => destruct (dict_truthy (Some d))
             end; reflexivity. }
  assert (Hs : status j4 = default (status j) stage).
  { subst j4. destruct stage, sp as [sp|], md as [md|];
      repeat match goal with
             | |- context [dict_truthy (Some ?d)] => destruct (dict_truthy (Some d))
             end; reflexivity. }
  assert (He : end_time j4 = end_time j).
  { subst j4. destruct stage, sp as [sp|], md as [md|];
      repeat match goal with
             | |- context [dict_truthy (Some ?d)] => destruct (dict_truthy (Some d))
             end; reflexivity. }
  clearbody j4. cbv zeta. rewrite Hp, Hs.
  destruct (Qle_bool 100 (py_min 100 (py_max 0 p))
            && negb (bool_decide (default (status j) stage = ERROR))) eqn:E.
  - cbn [end_time set_status]. rewrite He.
    destruct (end_time j); cbn; rewrite ?Hp; (split; [|split]); try done.
  - rewrite Hp, Hs, He. (split; [|split]); try done.
Qed.

(** C7.  For every job and every call of [update_progress] that supplies a
    progress value [p], the progress stored afterwards is [p] clamped to
    [0, 100]: it is [min(100.0, max(0.0, p))], that is 0 for a negative
    [p], 100 for a [p] above 100 and [p] itself in between, so it lies in
    [0, 100].  When that progress is at least 100 and the stage after the
    optional stage assignment is not [ERROR], the job ends in [COMPLETE]
    with its end time stamped: the clock read if it was unset, the old
    value otherwise.  In every other case the call leaves the stage as
    assigned and the end time as it was. *)
Theorem update_progress_clamps_and_completes
    (stage : option ProcessingStage.t) (p : Q)
    (sp : option (gmap string Q)) (md : option (gmap string json))
    (now : datetime) (j : ProcessingJob.t) :
  let j' := update_progress stage (Some p) sp md now j in
  progress j' = py_min 100 (py_max 0 p) /\
  ((p < 0)%Q -> progress j' = 0%Q) /\
  ((100 < p)%Q -> progress j' = 100%Q) /\
  ((0 <= p <= 100)%Q -> (progress j' == p)%Q) /\
  (0 <= progress j' <= 100)%Q /\
  ((100 <= progress j')%Q ->
   default (status j) stage <> ERROR ->
   status j' = COMPLETE /\
   end_time j' = Some (default now (end_time j))) /\
  ((progress j' < 100)%Q \/ default (status j) stage = ERROR ->
   status j' = default (status j) stage /\ end_time j' = end_time j).
Proof.
  destruct (update_progress_cases stage p sp md now j) as (Hp & Hdone & Hnot).
  cbv zeta in Hp, Hdone, Hnot |- *. rewrite Hp.
  split; [reflexivity|].
  split.
  { intros Hneg. unfold py_min, py_max.
    destruct (Qltb 0 p) eqn:E1; [apply Qltb_true in E1; lra|].
    destruct (Qltb 0 100) eqn:E2; [reflexivity|].
    apply Qltb_false in E2. lra. }
  split.
  { intros Hbig. unfold py_min, py_max.
    destruct (Qltb 0 p) eqn:E1; [|apply Qltb_false in E1; lra].
    destruct (Qltb p 100) eqn:E2; [apply Qltb_true in E2; lra|reflexivity]. }
  split; [apply clamp_id|].
  split; [apply clamp_range|].
  split.
  - intros Hge Hne. apply Hdone.
    apply andb_true_iff. split.
    + apply Qle_bool_iff, Hge.
    + apply negb_true_iff, bool_decide_eq_false, Hne.
  - intros Hcase. apply Hnot. apply andb_false_iff.
    destruct Hcase as [Hlt|Herr].
    + left. destruct (Qle_bool 100 (py_min 100 (py_max 0 p))) eqn:E; [|reflexivity].
      apply Qle_bool_iff in E. lra.
    + right. apply negb_false_iff, bool_decide_eq_true, Herr.
Qed.

Lemma update_progress_clamps_and_completes_witness :
  let j' := update_progress None (Some 250%Q) None None 1234%Z Samples.running_job in
  progress j' = 100%Q /\
  (0 <= progress j' <= 100)%Q /\
  status j' = COMPLETE /\ end_time j' = Some 1234%Z.
Proof.
  pose proof (update_progress_clamps_and_completes
                None 250%Q None None 1234%Z Samples.running_job)
    as (_ & _ & Hbig & _ & Hr & Hc & _).
  split; [apply Hbig; vm_compute; reflexivity|].
  split; [exact Hr|].
  apply Hc.
  - vm_compute. discriminate.
  - vm_compute. discriminate.
Defined.

End JobFacts.
Section ErrorFacts.
Import ProcessingStage ProcessingJob.

Lemma dict_truthy_lookup {V} (m : gmap string V) k v :
  m !! k = Some v -> dict_truthy (Some m) = true.
Proof.
  intros H. unfold dict_truthy. apply negb_true_iff, Nat.eqb_neq.
  apply (map_size_ne_0_lookup_2 m k). eauto.
Qed.

(** The fields [mark_error] assigns before it touches the history. *)
Lemma mark_error_fields msg det t_end t_entry j :
  let j' := fst (mark_error msg det t_end t_entry j) in
  status j' = ERROR /\ error_message j' = Some msg /\ error_details j' = det /\
  end_time j' = Some (default t_end (end_time j)) /\
  progress j' = progress j /\ start_time j' = start_time j /\
  stage_progress j' = stage_progress j /\ task_id j' = task_id j.
Proof.
  unfold mark_error. cbn [end_time set_status set_error_message set_error_details].
  destruct (end_time j) as [t|] eqn:Hend.
  all: cbv zeta.
  all: repeat match goal with
       | |- context [match ?m !! ?k with _ => _ end] => destruct (m !! k) as [[]|] eqn:?
       | |- context [if dict_truthy ?d then _ else _] => destruct (dict_truthy d) eqn:?
       end; cbn; rewrite ?Hend; repeat split; try reflexivity.
Qed.

(** A first failure: with the end time unset, the entry appended to the
    history carries the stage read after [status] was overwritten. *)
Lemma mark_error_appends msg det t_end t_entry j l :
  end_time j = None ->
  processing_errors j = Some l ->
  let '(j', r) := mark_error msg det t_end t_entry j in
  r = Ok tt /\
  processing_errors j' = Some (l ++ [error_entry t_entry "error" msg det]).
Proof.
  intros Hend Hl. unfold processing_errors in Hl.
  destruct j as [i v s p st en em ed sp [md|] cf tk]; cbn [end_time metadata] in *;
    [|discriminate].
  subst en.
  destruct (md !! "processing_errors") as [[]|] eqn:Hk; try discriminate.
  injection Hl as ->.
  unfold mark_error.
  cbn [end_time set_status set_error_message set_error_details metadata
       set_end_time set_metadata status default].
  rewrite (dict_truthy_lookup _ _ _ Hk).
  cbn [end_time set_status set_error_message set_error_details metadata
       set_end_time set_metadata status default].
  unfold Datatypes.id. rewrite !Hk.
  split; [reflexivity|].
  unfold processing_errors. cbn [metadata set_metadata].
  rewrite lookup_insert_eq. reflexivity.
Qed.

(** A later failure: once the end time is set, the call stops at the
    unbound local [datetime], after the message and the details have been
    overwritten and before anything is appended. *)
Lemma mark_error_again msg det t_end t_entry j t l :
  end_time j = Some t ->
  processing_errors j = Some l ->
  let '(j', r) := mark_error msg det t_end t_entry j in
  r = Raise (UnboundLocalError "datetime") /\
  processing_errors j' = Some l /\
  error_message j' = Some msg /\ error_details j' = det.
Proof.
  intros Hend Hl. unfold processing_errors in Hl.
  destruct j as [i v s p st en em ed sp [md|] cf tk]; cbn [end_time metadata] in *;
    [|discriminate].
  subst en.
  destruct (md !! "processing_errors") as [[]|] eqn:Hk; try discriminate.
  injection Hl as ->.
  unfold mark_error.
  cbn [end_time set_status set_error_message set_error_details metadata
       set_end_time set_metadata status default].
  rewrite (dict_truthy_lookup _ _ _ Hk).
  cbn [end_time set_status set_error_message set_error_details metadata
       set_end_time set_metadata status default].
  unfold Datatypes.id. rewrite !Hk.
  split; [reflexivity|].
  unfold processing_errors. cbn [metadata set_metadata error_message error_details].
  rewrite Hk. auto.
Qed.

(** C6.  [mark_error] on a job that is generating the transcript, then
    once more on the failed job.  The first call succeeds and appends one
    entry, whose recorded stage is ["error"] and not the stage the job was
    in ("generating_transcript"): [status] is overwritten before it is
    read.  The second call raises [UnboundLocalError] on the local
    [datetime], appends nothing, and has already replaced the message and
    the details. *)
Theorem mark_error_history_on_running_job :
  let '(j1, r1) := mark_error "boom" JNull 950%Z 951%Z Samples.running_job in
  let '(j2, r2) := mark_error "again" (JStr "trace") 960%Z 961%Z j1 in
  value (status Samples.running_job) = "generating_transcript" /\
  r1 = Ok tt /\
  processing_errors j1 = Some [error_entry 951%Z "error" "boom" JNull] /\
  r2 = Raise (UnboundLocalError "datetime") /\
  processing_errors j2 = processing_errors j1 /\
  error_message j2 = Some "again" /\
  error_details j2 = JStr "trace".
Proof. vm_compute. repeat split. Qed.
End ErrorFacts.

(** ** The stage progress wrappers *)

Section AggregatorFacts.
Import ChapterProcessor.

Lemma transcription_adjusted_alt (p : Q) :
  (transcription_adjusted p == 0 + (p / 100) * (50 - 0))%Q.
Proof. unfold transcription_adjusted. field. Qed.

Lemma chapter_adjusted_alt (p : Q) :
  (chapter_adjusted p == 50 + (p / 100) * (85 - 50))%Q.
Proof. unfold chapter_adjusted. field. Qed.

Lemma transcription_adjusted_mono (p q : Q) :
  (p <= q)%Q -> (transcription_adjusted p <= transcription_adjusted q)%Q.
Proof.
  intros H. unfold transcription_adjusted, Qdiv.
  change (/ 100)%Q with (1 # 100)%Q. lra.
Qed.

Lemma chapter_adjusted_mono (p q : Q) :
  (p <= q)%Q -> (chapter_adjusted p <= chapter_adjusted q)%Q.
Proof.
  intros H. unfold chapter_adjusted, Qdiv.
  change (/ 100)%Q with (1 # 100)%Q. lra.
Qed.

(** What the two closures hand to the outer callback is the adjusted
    value, under the prefixed message. *)
Lemma transcription_progress_reports (cb : callback) (p : Q) (msg : string) (w : World) :
  transcription_progress (Some cb) None p msg w
  = cb (transcription_adjusted p) ("Transcription: " +:+ msg) w.
Proof. reflexivity. Qed.

Lemma chapter_progress_reports (cb : callback) (p : Q) (msg : string) (w : World) :
  chapter_progress (Some cb) None p msg w
  = cb (chapter_adjusted p) ("Chapter Generation: " +:+ msg) w.
Proof. reflexivity. Qed.

(** C8.  The transcription wrapper is the mapping
    [lower + (local/100) * (upper - lower)] for the range [0, 50] and the
    chapter generation wrapper is that mapping for [50, 85]; each is
    monotonically non-decreasing in the local progress; and a local
    progress in [0, 100] lands in [0, 50] for transcription and in
    [50, 85] for chapter generation. *)
Theorem stage_progress_monotone_and_in_range (p q : Q) :
  (p <= q)%Q ->
  (transcription_adjusted p == 0 + (p / 100) * (50 - 0))%Q /\
  (chapter_adjusted p == 50 + (p / 100) * (85 - 50))%Q /\
  (transcription_adjusted p <= transcription_adjusted q)%Q /\
  (chapter_adjusted p <= chapter_adjusted q)%Q /\
  ((0 <= p)%Q -> (p <= 100)%Q ->
   (0 <= transcription_adjusted p <= 50)%Q /\
   (50 <= chapter_adjusted p <= 85)%Q).
Proof.
  intros Hpq.
  split; [apply transcription_adjusted_alt|].
  split; [apply chapter_adjusted_alt|].
  split; [apply transcription_adjusted_mono, Hpq|].
  split; [apply chapter_adjusted_mono, Hpq|].
  intros H0 H100. unfold transcription_adjusted, chapter_adjusted, Qdiv.
  change (/ 100)%Q with (1 # 100)%Q. split; split; lra.
Qed.

Lemma stage_progress_monotone_and_in_range_witness :
  (transcription_adjusted 25 <= transcription_adjusted 80)%Q /\
  (chapter_adjusted 25 <= chapter_adjusted 80)%Q /\
  (0 <= transcription_adjusted 25 <= 50)%Q /\
  (50 <= chapter_adjusted 25 <= 85)%Q.
Proof.
  assert (H : (25 <= 80)%Q) by (vm_compute; discriminate).
  destruct (stage_progress_monotone_and_in_range 25 80 H)
    as (_ & _ & Ht & Hc & Hr).
  split; [exact Ht|]. split; [exact Hc|].
  apply Hr; vm_compute; discriminate.
Defined.

End AggregatorFacts.

(** ** Generation with retry and fallback *)

Section GenerationFacts.
Import LLMProcessor.

(** The synthesized fallback list: its length and its entries. *)
Lemma fallback_length (n : Z) (m : Q) :
  length (_create_fallback_chapters n m) = Z.to_nat n.
Proof. unfold _create_fallback_chapters. rewrite length_fmap. apply length_seq. Qed.

Lemma fallback_lookup (n : Z) (m : Q) (i : nat) :
  i < Z.to_nat n ->
  _create_fallback_chapters n m !! i
  = Some {| start_time := inject_Z (Z.of_nat i) * m;
            title := "Chapter " +:+ str_of_nat (i + 1);
            confidence := 1 # 2 |}.
Proof.
  intros Hi. unfold _create_fallback_chapters.
  rewrite list_lookup_fmap, lookup_seq_lt by exact Hi. reflexivity.
Qed.

(** The validator falls back to five chapters on an empty list. *)
Lemma validate_empty (d m : Q) :
  _validate_and_process_chapters [] d m = _create_fallback_chapters 5 m.
Proof. reflexivity. Qed.

(** Three attempts that all raise: the last exception leaves the loop. *)
Lemma retry_all_raise (a : adapter) (n : Z) (m : Q) (e0 e1 e2 : exn) :
  attempt a 0 = Raise e0 -> attempt a 1 = Raise e1 -> attempt a 2 = Raise e2 ->
  _generate_with_retry a n m 3 = Raise e2.
Proof.
  intros H0 H1 H2. unfold _generate_with_retry. cbn.
  rewrite H0, H1, H2. reflexivity.
Qed.

(** Three attempts that all parse to nothing: the loop falls through. *)
Lemma retry_none_parse (a : adapter) (n : Z) (m : Q) :
  (forall i, i < 3 -> attempt a i = Ok []) ->
  _generate_with_retry a n m 3 = Ok (_create_fallback_chapters n m).
Proof.
  intros H. unfold _generate_with_retry. cbn.
  rewrite !H by lia. reflexivity.
Qed.

(** The claim C2 fails on a model whose attempts all raise: the call ends
    in that exception and returns no list. *)
Lemma generate_chapters_propagates_adapter_failure :
  snd (generate_chapters Samples.always_raising (Some 3600%Q) 15 30 None
                         Samples.running_world)
  = Raise (AdapterError "generation failed") /\
  ~ (exists chapters,
       snd (generate_chapters Samples.always_raising (Some 3600%Q) 15 30 None
                              Samples.running_world) = Ok chapters).
Proof.
  assert (H : snd (generate_chapters Samples.always_raising (Some 3600%Q) 15 30 None
                                     Samples.running_world)
              = Raise (AdapterError "generation failed")) by reflexivity.
  split; [exact H|]. intros [chapters Hc]. rewrite H in Hc. discriminate.
Qed.

(** C2, amended.  If each of the three generation attempts raises, the
    retry loop ends in the exception of the last attempt and
    [generate_chapters] raises: it returns no chapter list.  When the
    model loads and the duration is known, the exception raised is that of
    the last attempt. *)
Theorem generate_chapters_raises_when_all_attempts_raise
    (a : adapter) (d : option Q) (n : Z) (m : Q) (cb : option callback)
    (w : World) (e0 e1 e2 : exn) :
  attempt a 0 = Raise e0 -> attempt a 1 = Raise e1 -> attempt a 2 = Raise e2 ->
  _generate_with_retry a n m 3 = Raise e2 /\
  (exists e, snd (generate_chapters a d n m cb w) = Raise e) /\
  (load_model a = Ok tt -> is_Some d ->
   snd (generate_chapters a d n m cb w) = Raise e2).
Proof.
  intros H0 H1 H2.
  pose proof (retry_all_raise a n m e0 e1 e2 H0 H1 H2) as Hr.
  split; [exact Hr|].
  unfold generate_chapters, bind, call, lift, raise, step, ret.
  destruct cb as [f|], (load_model a) as [[]|el], d as [d|]; cbn; rewrite ?Hr; cbn;
    (split; [eauto|]); intros Hl Hd; try reflexivity; try discriminate;
    try (destruct Hd; discriminate).
Qed.

Lemma generate_chapters_raises_when_all_attempts_raise_witness :
  snd (generate_chapters Samples.always_raising (Some 3600%Q) 15 30 None
                         Samples.running_world)
  = Raise (AdapterError "generation failed").
Proof.
  apply (generate_chapters_raises_when_all_attempts_raise
           Samples.always_raising (Some 3600%Q) 15 30 None Samples.running_world
           (AdapterError "generation failed") (AdapterError "generation failed")
           (AdapterError "generation failed")).
  - reflexivity.
  - reflexivity.
  - reflexivity.
  - reflexivity.
  - eauto.
Defined.

(** The claim C5 fails with the default limits: when no attempt parses
    anything, fifteen chapters are synthesized, not five, and all fifteen
    survive validation for an hour-long video. *)
Lemma fallback_count_is_max_chapters_not_five :
  (exists l,
     _generate_with_retry Samples.never_parsing
       (ChapterProcessor.max_chapters ChapterProcessor.default_config)
       (ChapterProcessor.min_chapter_length ChapterProcessor.default_config) 3
     = Ok l /\ length l = 15 /\ length l <> 5) /\
  (exists l,
     snd (generate_chapters Samples.never_parsing (Some 3600%Q) 15 30 None
                            Samples.running_world) = Ok l /\
     length l = 15).
Proof.
  split; eexists; (split; [reflexivity|]); vm_compute; [split|]; congruence.
Qed.

(** C5, amended.  When the three attempts complete without raising and
    none yields a candidate, the engine synthesizes the fallback list of
    [max_chapters] entries (15 when the caller keeps the default): entry
    [i], counted from 0, starts at [i * min_chapter_length], is titled
    "Chapter N" with [N = i + 1], and has confidence 0.5. *)
Theorem fallback_when_no_attempt_parses
    (a : adapter) (max_chapters : Z) (min_chapter_length : Q) :
  (forall i, i < 3 -> attempt a i = Ok []) ->
  _generate_with_retry a max_chapters min_chapter_length 3
  = Ok (_create_fallback_chapters max_chapters min_chapter_length) /\
  length (_create_fallback_chapters max_chapters min_chapter_length)
  = Z.to_nat max_chapters /\
  (forall i, i < Z.to_nat max_chapters ->
     _create_fallback_chapters max_chapters min_chapter_length !! i
     = Some {| start_time := inject_Z (Z.of_nat i) * min_chapter_length;
               title := "Chapter " +:+ str_of_nat (i + 1);
               confidence := 1 # 2 |}).
Proof.
  intros H. split; [apply retry_none_parse, H|].
  split; [apply fallback_length|]. intros i Hi. apply fallback_lookup, Hi.
Qed.

Lemma fallback_when_no_attempt_parses_witness :
  _generate_with_retry Samples.never_parsing 15 30 3
  = Ok (_create_fallback_chapters 15 30) /\
  _create_fallback_chapters 15 30 !! 2
  = Some {| start_time := inject_Z 2 * 30; title := "Chapter 3"; confidence := 1 # 2 |}.
Proof.
  destruct (fallback_when_no_attempt_parses Samples.never_parsing 15 30)
    as (Hr & _ & Hl).
  - intros i _. reflexivity.
  - split; [exact Hr|]. apply (Hl 2). vm_compute. lia.
Defined.

End GenerationFacts.

(** ** Validation and merge *)

Section MergeFacts.
Import LLMProcessor.



(** After the first iteration the kept list is never empty, so
    [filtered_chapters[-1]] always exists. *)
Lemma merge_step_nonempty (m : Q) (i : nat) (c : candidate) (kept : list candidate) :
  (i = 0 \/ kept <> []) -> merge_step m i c kept <> [].
Proof.
  intros H. unfold merge_step. destruct i as [|i]; cbn [Nat.eqb].
  - destruct kept; discriminate.
  - destruct H as [H|H]; [discriminate|].
    destruct (last kept) as [prev|] eqn:Hl; [|exact H].
    cbv zeta. destruct (float_ge _ _); [destruct kept; discriminate|].
    destruct (Qltb _ _); [|exact H].
    intros Hnil. apply (f_equal length) in Hnil.
    rewrite length_insert in Hnil. destruct kept; [congruence|discriminate].
Qed.

Lemma merge_from_nonempty (m : Q) (chapters : list candidate) :
  forall i kept, (i = 0 \/ kept <> []) -> chapters <> [] \/ kept <> [] ->
                 merge_from m i chapters kept <> [].
Proof.
  induction chapters as [|c rest IH]; intros i kept Hi Hne; cbn [merge_from].
  - destruct Hne as [Hne|Hne]; [congruence|exact Hne].
  - apply IH; right; apply merge_step_nonempty, Hi.
Qed.


(** C3.  The validator on two candidates ten seconds apart, the later one
    the more confident, with minimum length 30: the merge puts the later
    candidate in the place of the one at 0, so the only chapter of the
    result, and the only row saved, starts at 10.  A candidate with a
    negative start time is likewise returned as the first chapter, no
    introduction being inserted in front of it. *)
Theorem validator_output_need_not_start_at_zero :
  _validate_and_process_chapters Samples.close_pair 100 30
  = [ mk 10 "Topic" (9 # 10) ] /\
  ~ (10 == 0)%Q /\
  match ChapterProcessor._save_chapters
          (_validate_and_process_chapters Samples.close_pair 100 30)
          "video-1" None Samples.running_world with
  | (_, Ok rows) =>
      (fun c => (Chapter.start_time c, Chapter.order c)) <$> rows = [ (10%Q, 1) ]
  | (_, Raise _) => False
  end /\
  _validate_and_process_chapters [ mk (-5) "Early" (4 # 5) ] 100 30
  = [ mk (-5) "Early" (4 # 5) ].
Proof.
  split; [vm_compute; reflexivity|].
  split; [intros H; vm_compute in H; discriminate|].
  split; vm_compute; reflexivity.
Qed.
End MergeFacts.

(** ** The dispatcher *)

Section DispatcherFacts.
Import ProcessingStage ProcessingPipeline.

(** Notifications only add to the emitted events. *)
Lemma notify_job_update_frame (k : string) (w : World) :
  exists w',
    notify_job_update k w = (w', Ok tt) /\
    jobs w' = jobs w /\ videos w' = videos w /\ queue w' = queue w /\
    chapter_table w' = chapter_table w.
Proof.
  unfold notify_job_update, bind, ProcessingJob_get_by_id, Video_get_by_id, ret.
  destruct (jobs w !! k) as [job|]; [|eauto 10].
  destruct (videos w !! ProcessingJob.video_id job) as [v|];
    destruct (ProcessingJob.is_complete job && _);
    try destruct (String.eqb (value (ProcessingJob.status job)) "error");
    cbn; eauto 10.
Qed.

Lemma restart_job_refused (w : World) (job_id : string) (job : ProcessingJob.t) :
  jobs w !! job_id = Some job ->
  ProcessingJob.status job <> ERROR ->
  restart_job job_id w = (w, Raise (ValueError "Can only restart failed jobs")).
Proof.
  intros Hj Hs. unfold restart_job, bind, ProcessingJob_get_by_id. rewrite Hj.
  destruct (ProcessingJob.status job); try reflexivity. congruence.
Qed.

Lemma restart_job_accepted (w : World) (job_id : string) (job : ProcessingJob.t) :
  jobs w !! job_id = Some job ->
  ProcessingJob.status job = ERROR ->
  exists w',
    restart_job job_id w
    = (w', Ok (restarted job_id (uuid4 w (drawn w)))) /\
    jobs w' !! job_id
    = Some (ProcessingJob.set_task_id (Some (uuid4 w (drawn w)))
              (reset_job (clock w (ticks w)) job)) /\
    (forall k, k <> job_id -> jobs w' !! k = jobs w !! k) /\
    queue w'
    = queue w ++ [mk_task (ProcessingJob.video_id job) (ProcessingJob.id job)
                          (ProcessingJob.config job)].
Proof.
  intros Hj Hs.
  unfold restart_job, bind, ProcessingJob_get_by_id. rewrite Hj, Hs.
  cbn [value String.eqb Ascii.eqb Bool.eqb negb].
  unfold try_except, bind, utcnow, modify_job, step, Video_get_by_id, delay,
    fresh_id, modify_video, ret, bind, step.
  cbn [jobs videos queue set_ticks set_jobs set_videos set_drawn set_queue
       ticks drawn clock uuid4 fst snd].
  destruct (videos w !! ProcessingJob.video_id job) as [v|];
    cbn [jobs videos queue set_ticks set_jobs set_videos set_drawn set_queue
         ticks drawn clock uuid4 fst snd].
  all: match goal with
       | |- context [notify_job_update ?k ?w0] =>
           destruct (notify_job_update_frame k w0) as (w' & -> & Hjobs & _ & Hq & _)
       end.
  all: exists w'; split; [reflexivity|]; rewrite Hjobs, Hq;
    cbn [jobs videos queue set_ticks set_jobs set_videos set_drawn set_queue
         ticks drawn clock uuid4 fst snd].
  all: split; [rewrite !lookup_alter_eq, Hj; reflexivity|].
  all: split; [intros k Hk; rewrite !lookup_alter_ne by congruence; reflexivity|].
  all: reflexivity.
Qed.

(** The state [reset_job] leaves. *)
Lemma reset_job_fields (now : datetime) (job : ProcessingJob.t) :
  let fresh := reset_job now job in
  ProcessingJob.status fresh = UPLOADING /\
  ProcessingJob.progress fresh = 0%Q /\
  ProcessingJob.error_message fresh = None /\
  ProcessingJob.error_details fresh = JNull /\
  ProcessingJob.task_id fresh = None /\
  ProcessingJob.start_time fresh = Some now /\
  ProcessingJob.end_time fresh = None /\
  ProcessingJob.stage_progress fresh = Some zero_stage_progress.
Proof. cbn. repeat split. Qed.

Lemma zero_stage_progress_lookup (s : ProcessingStage.t) :
  terminal s = false -> zero_stage_progress !! value s = Some 0%Q.
Proof. destruct s; intros H; try discriminate H; reflexivity. Qed.


(** C9.  [restart_job] on a job whose stage is not [ERROR] raises the
    validation error and leaves the world as it was.  On a job in [ERROR]
    it succeeds: the job is reset (stage [UPLOADING], progress 0, no error
    message or details, no end time, start time the clock read, task
    handle cleared, stage progress 0 for every non-terminal stage), a
    fresh task is queued, and the job as stored afterwards is the reset
    job carrying the handle of that task; no other job changes. *)
Theorem restart_job_only_from_error
    (w : World) (job_id : string) (job : ProcessingJob.t) :
  jobs w !! job_id = Some job ->
  (ProcessingJob.status job <> ERROR ->
   restart_job job_id w = (w, Raise (ValueError "Can only restart failed jobs"))) /\
  (ProcessingJob.status job = ERROR ->
   let now := clock w (ticks w) in
   let handle := uuid4 w (drawn w) in
   let fresh := reset_job now job in
   (ProcessingJob.status fresh = UPLOADING /\
    ProcessingJob.progress fresh = 0%Q /\
    ProcessingJob.error_message fresh = None /\
    ProcessingJob.error_details fresh = JNull /\
    ProcessingJob.task_id fresh = None /\
    ProcessingJob.start_time fresh = Some now /\
    ProcessingJob.end_time fresh = None /\
    exists sp, ProcessingJob.stage_progress fresh = Some sp /\
               forall s, terminal s = false -> sp !! value s = Some 0%Q) /\
   exists w',
     restart_job job_id w = (w', Ok (restarted job_id handle)) /\
     jobs w' !! job_id = Some (ProcessingJob.set_task_id (Some handle) fresh) /\
     (forall k, k <> job_id -> jobs w' !! k = jobs w !! k) /\
     queue w'
     = queue w ++ [mk_task (ProcessingJob.video_id job) (ProcessingJob.id job)
                           (ProcessingJob.config job)]).
Proof.
  intros Hj. split.
  - apply restart_job_refused, Hj.
  - intros Hs. cbv zeta. split.
    + destruct (reset_job_fields (clock w (ticks w)) job)
        as (H1 & H2 & H3 & H4 & H5 & H6 & H7 & H8).
      repeat (split; [assumption|]).
      exists zero_stage_progress. split; [assumption|].
      apply zero_stage_progress_lookup.
    + apply restart_job_accepted; assumption.
Qed.

Lemma restart_job_only_from_error_witness :
  restart_job "job-1" Samples.running_world
  = (Samples.running_world, Raise (ValueError "Can only restart failed jobs")) /\
  exists w',
    restart_job "job-1" Samples.failed_world = (w', Ok (restarted "job-1" "uuid-0")) /\
    ProcessingJob.progress <$> jobs w' !! "job-1" = Some 0%Q /\
    ProcessingJob.status <$> jobs w' !! "job-1" = Some UPLOADING.
Proof.
  split.
  - apply (restart_job_only_from_error Samples.running_world "job-1"
             Samples.running_job).
    + reflexivity.
    + vm_compute. discriminate.
  - destruct (restart_job_only_from_error Samples.failed_world "job-1"
                Samples.failed_job) as [_ Hok].
    + reflexivity.
    + destruct Hok as (_ & w' & Hrun & Hjob & _).
      * reflexivity.
      * exists w'. split; [exact Hrun|]. rewrite Hjob. split; reflexivity.
Defined.

(** The class [ProcessingJob] binds no attribute of the name
    [start_processing] asks for. *)
Lemma ProcessingJob_has_no_active_job_lookup :
  class_getattr "ProcessingJob" ProcessingJob_attributes "get_active_job_for_video"
  = Raise (AttributeError "ProcessingJob" "get_active_job_for_video").
Proof. reflexivity. Qed.

(** So for every existing video, whatever the lookup would return, the
    call ends in [AttributeError] with the world untouched. *)
Lemma start_processing_attribute_error
    (lookup : string -> M (option ProcessingJob.t)) (video_id : string)
    (opts : option options) (w : World) (v : Video.t) :
  videos w !! video_id = Some v ->
  start_processing lookup video_id opts w
  = (w, Raise (AttributeError "ProcessingJob" "get_active_job_for_video")).
Proof.
  intros Hv. unfold start_processing, try_except, bind, Video_get_by_id.
  rewrite Hv. reflexivity.
Qed.

(** The branch written for an active job returns that job's id and
    changes nothing: no job is created and no task is queued. *)
Lemma dispatch_existing_job (job : ProcessingJob.t) (video : Video.t)
    (video_id : string) (opts : option options) (w : World) :
  dispatch (Some job) video video_id opts w
  = (w, Ok (already_processing (ProcessingJob.id job))).
Proof. reflexivity. Qed.

(** C1.  Video [video-1] has the non-terminal job [job-1], which the
    lookup described by the specification finds; [start_processing] for
    that video does not return it: the call raises [AttributeError] for
    the missing [ProcessingJob.get_active_job_for_video] and leaves the
    world unchanged. *)
Theorem start_processing_on_active_video_raises :
  ProcessingJob.is_complete Samples.running_job = false /\
  SpecModel.get_active_job_for_video "video-1" Samples.running_world
  = (Samples.running_world, Ok (Some Samples.running_job)) /\
  start_processing SpecModel.get_active_job_for_video "video-1" None
                   Samples.running_world
  = (Samples.running_world,
     Raise (AttributeError "ProcessingJob" "get_active_job_for_video")).
Proof.
  split; [reflexivity|]. split; [vm_compute; reflexivity|].
  apply (start_processing_attribute_error _ _ _ _ Samples.video1). reflexivity.
Qed.

(** C10.  [PROCESSING] is not a member of [ProcessingStage], so on every
    existing job the [try] body of [process_video_task] raises
    [AttributeError] at the first stage update, with nothing changed and
    whatever the processing pipeline behind it is, and the task continues
    in its error handler. *)
Theorem process_video_task_stops_at_stage_lookup
    {R : Type}
    (process_video :
       ChapterProcessor.config_t -> string -> string -> callback ->
       option options -> M R)
    (retries : nat) (w : World) (video_id job_id : string)
    (opts : option options) (job : ProcessingJob.t) :
  jobs w !! job_id = Some job ->
  (forall s, ("PROCESSING", s) ∉ members) /\
  getattr "PROCESSING" = Raise (AttributeError "ProcessingStage" "PROCESSING") /\
  task_body process_video (Some job) video_id job_id opts w
  = (w, Raise (AttributeError "ProcessingStage" "PROCESSING")) /\
  process_video_task process_video retries video_id job_id opts w
  = task_handler (Some job) video_id job_id retries opts
                 (AttributeError "ProcessingStage" "PROCESSING") w.
Proof.
  intros Hj. split.
  { intros s Hs. unfold members in Hs.
    repeat (apply elem_of_cons in Hs; destruct Hs as [Hs|Hs]; [discriminate|]).
    apply elem_of_nil in Hs. exact Hs. }
  split; [reflexivity|]. split; [reflexivity|].
  unfold process_video_task, bind, ProcessingJob_get_by_id. rewrite Hj.
  reflexivity.
Qed.

Lemma process_video_task_stops_at_stage_lookup_witness :
  process_video_task (fun _ _ _ _ _ => ret tt) 0 "video-1" "job-1" None
                     Samples.running_world
  = task_handler (Some Samples.running_job) "video-1" "job-1" 0 None
                 (AttributeError "ProcessingStage" "PROCESSING")
                 Samples.running_world.
Proof.
  apply (process_video_task_stops_at_stage_lookup
           (fun _ _ _ _ _ => ret tt) 0 Samples.running_world "video-1" "job-1"
           None Samples.running_job).
  reflexivity.
Defined.

(** On the sample job the handler then marks the job failed, marks the
    video failed and asks the queue for a retry. *)
Lemma process_video_task_on_running_job :
  match process_video_task (fun _ _ _ _ _ => ret tt) 0 "video-1" "job-1" None
                           Samples.running_world with
  | (w', r) =>
      r = Raise (Retry (AttributeError "ProcessingStage" "PROCESSING")) /\
      ProcessingJob.status <$> jobs w' !! "job-1" = Some ERROR /\
      Video.processing_status <$> videos w' !! "video-1" = Some Video.failed /\
      emitted w' = [ socket_emit "job_error" "job_job-1";
                     socket_emit "video_job_error" "video_video-1" ] /\
      queue w' = [ mk_task "video-1" "job-1" None ]
  end.
Proof. vm_compute. repeat split. Qed.
End DispatcherFacts.

(** ** What the validator does guarantee: order and size *)

Section SortFacts.
Context {A : Type} (k : A -> Q).

Lemma length_insert_by (before : A -> A -> bool) (x : A) (l : list A) :
  length (insert_by before x l) = S (length l).
Proof.
  induction l as [|y l IH]; cbn; [reflexivity|].
  destruct (before x y); cbn; [reflexivity|]. rewrite IH. reflexivity.
Qed.

Lemma length_sort_by (before : A -> A -> bool) (l : list A) :
  length (sort_by before l) = length l.
Proof.
  induction l as [|x l IH]; cbn; [reflexivity|].
  rewrite length_insert_by. unfold sort_by in IH. rewrite IH. reflexivity.
Qed.

Lemma Forall_insert_by (P : A -> Prop) (before : A -> A -> bool) (x : A) (l : list A) :
  P x -> Forall P l -> Forall P (insert_by before x l).
Proof.
  intros Hx Hl. induction Hl as [|y l Hy Hl IH]; cbn.
  - constructor; [exact Hx|constructor].
  - destruct (before x y); repeat constructor; assumption.
Qed.

Lemma insert_by_sorted (x : A) (l : list A) :
  StronglySorted (fun a b : A => (k a <= k b)%Q) l ->
  StronglySorted (fun a b : A => (k a <= k b)%Q) (insert_by (fun a b => Qle_bool (k a) (k b)) x l).
Proof.
  induction 1 as [|y l Hl IH Hy]; cbn.
  - repeat constructor.
  - destruct (Qle_bool (k x) (k y)) eqn:E.
    + apply Qle_bool_iff in E. constructor.
      * constructor; assumption.
      * constructor; [exact E|].
        eapply Forall_impl; [exact Hy|]. cbn. intros z Hz. lra.
    + assert (Hyx : (k y <= k x)%Q).
      { destruct (Qlt_le_dec (k y) (k x)) as [Hlt|Hle]; [lra|].
        apply Qle_bool_iff in Hle. congruence. }
      constructor; [exact IH|].
      apply Forall_insert_by; assumption.
Qed.

(** [sorted(xs, key=k)] is ascending in the key. *)
Lemma sorted_asc_sorted (l : list A) : StronglySorted (fun a b : A => (k a <= k b)%Q) (sorted_asc k l).
Proof.
  unfold sorted_asc, sort_by. induction l as [|x l IH]; cbn.
  - constructor.
  - apply insert_by_sorted, IH.
Qed.

Lemma StronglySorted_sublist (R : A -> A -> Prop) (l1 l2 : list A) :
  l1 `sublist_of` l2 -> StronglySorted R l2 -> StronglySorted R l1.
Proof.
  induction 1 as [|x l1 l2 Hs IH|x l1 l2 Hs IH]; intros Hsorted.
  - constructor.
  - apply StronglySorted_inv in Hsorted as [Hl2 Hx].
    constructor; [apply IH, Hl2|].
    rewrite Forall_forall in Hx |- *. intros y Hy. apply Hx.
    eapply elem_of_sublist; [exact Hy|exact Hs].
  - apply StronglySorted_inv in Hsorted as [Hl2 _]. apply IH, Hl2.
Qed.

Lemma filter_sublist (f : A -> bool) (l : list A) : List.filter f l `sublist_of` l.
Proof.
  induction l as [|x l IH]; cbn; [constructor|].
  destruct (f x); constructor; exact IH.
Qed.
End SortFacts.

Section ValidatorFacts.
Import LLMProcessor.

(** Each iteration keeps a sublist of what was kept plus the candidate. *)
Lemma merge_step_sublist (m : Q) (i : nat) (c : candidate) (kept rest : list candidate) :
  merge_step m i c kept ++ rest `sublist_of` kept ++ c :: rest.
Proof.
  unfold merge_step. destruct (Nat.eqb i 0).
  { rewrite <- app_assoc. reflexivity. }
  destruct (last kept) as [prev|] eqn:Hlast.
  - apply last_Some in Hlast as [init ->].
    cbv zeta. destruct (float_ge _ _).
    { rewrite <- !app_assoc. reflexivity. }
    destruct (Qltb _ _).
    + rewrite length_app. cbn [length].
      replace (Nat.pred (length init + 1)) with (length init + 0) by lia.
      rewrite insert_app_r. cbn. rewrite <- !app_assoc. cbn.
      apply sublist_app; [reflexivity|]. apply sublist_cons, reflexivity.
    + apply sublist_app; [reflexivity|]. apply sublist_cons, reflexivity.
  - apply sublist_app; [reflexivity|]. apply sublist_cons, reflexivity.
Qed.

Lemma merge_from_sublist (m : Q) (chapters : list candidate) :
  forall i kept, merge_from m i chapters kept `sublist_of` kept ++ chapters.
Proof.
  induction chapters as [|c rest IH]; intros i kept; cbn [merge_from].
  - rewrite app_nil_r. reflexivity.
  - etransitivity; [apply IH|]. apply merge_step_sublist.
Qed.

(** The fallback list is ascending when the minimum length is not negative. *)
Lemma fallback_ascending (n : Z) (m : Q) :
  (0 <= m)%Q ->
  StronglySorted (fun a b : candidate => (start_time a <= start_time b)%Q)
    (_create_fallback_chapters n m).
Proof.
  intros Hm. unfold _create_fallback_chapters.
  assert (H : forall len a,
             StronglySorted (fun a b : candidate => (start_time a <= start_time b)%Q)
               ((fun i : nat =>
                   {| start_time := inject_Z (Z.of_nat i) * m;
                      title := "Chapter " +:+ str_of_nat (i + 1);
                      confidence := 1 # 2 |}) <$> seq a len)).
  { induction len as [|len IH]; intros a; cbn [seq fmap list_fmap].
    - constructor.
    - constructor; [apply IH|].
      apply Forall_fmap, Forall_seq. intros j Hj. cbn.
      apply Qmult_le_compat_r; [|exact Hm].
      rewrite <- Zle_Qle. lia. }
  apply H.
Qed.

(** The validated list is ascending by start time. *)
Lemma validated_chapters_ascending (chapters : list candidate) (d m : Q) :
  (0 <= m)%Q -> StronglySorted (fun a b : candidate => (start_time a <= start_time b)%Q)
    (_validate_and_process_chapters chapters d m).
Proof.
  intros Hm. unfold _validate_and_process_chapters.
  destruct chapters as [|c0 cs]; [apply fallback_ascending, Hm|].
  destruct (Nat.ltb 15 _); [apply sorted_asc_sorted|].
  unfold merge_close_chapters.
  eapply StronglySorted_sublist; [apply merge_from_sublist|]. cbn [app].
  eapply StronglySorted_sublist; [apply filter_sublist|].
  pose proof (sorted_asc_sorted start_time (c0 :: cs)) as Hs.
  destruct (sorted_asc start_time (c0 :: cs)) as [|first rest]; [constructor|].
  destruct (Qltb 0 (start_time first)) eqn:E; [|exact Hs].
  apply Qltb_true in E. constructor; [exact Hs|].
  apply StronglySorted_inv in Hs as [_ Hfirst].
  constructor; [cbn; lra|].
  eapply Forall_impl; [exact Hfirst|]. cbn. intros z Hz. lra.
Qed.

(** The validated list has at most fifteen chapters. *)
Lemma validated_chapters_at_most_15 (chapters : list candidate) (d m : Q) :
  length (_validate_and_process_chapters chapters d m) <= 15.
Proof.
  unfold _validate_and_process_chapters.
  destruct chapters as [|c0 cs]; [rewrite fallback_length; cbn; lia|].
  match goal with
  | |- context [Nat.ltb 15 (length ?l)] => destruct (Nat.ltb 15 (length l)) eqn:E
  end.
  - unfold sorted_asc. rewrite length_sort_by, length_take. lia.
  - apply Nat.ltb_ge in E. exact E.
Qed.

End ValidatorFacts.

(** * Further properties of the code *)

(** ** The job operations *)

Section JobOperationFacts.
Import ProcessingStage ProcessingJob.

Lemma dict_truthy_union {V} (d x : gmap string V) :
  dict_truthy (Some d) = true -> dict_truthy (Some (d ∪ x)) = true.
Proof.
  unfold dict_truthy. rewrite !negb_true_iff, !Nat.eqb_neq.
  rewrite !map_size_ne_0_lookup. intros [k [v Hk]].
  exists k, v. apply lookup_union_Some_l, Hk.
Qed.

Lemma union_absorb {V} (d x : gmap string V) : d ∪ (d ∪ x) = d ∪ x.
Proof. rewrite (assoc_L (∪)). rewrite (idemp_L (∪) d). reflexivity. Qed.

(** [update_progress] field by field. *)
Lemma update_progress_fields stage p sp md now j :
  let current := default (status j) stage in
  let stored := match p with
                | Some p => py_min 100 (py_max 0 p)
                | None => progress j
                end in
  let done := Qle_bool 100 stored && negb (bool_decide (current = ERROR)) in
  update_progress stage p sp md now j
  = {| id := id j;
       video_id := video_id j;
       status := if done then COMPLETE else current;
       progress := stored;
       start_time := start_time j;
       end_time := if done then Some (default now (end_time j)) else end_time j;
       error_message := error_message j;
       error_details := error_details j;
       stage_progress :=
         match sp with
         | Some d =>
             if dict_truthy (Some d)
             then Some (d ∪ (if dict_truthy (stage_progress j)
                             then default ∅ (stage_progress j) else ∅))
             else stage_progress j
         | None => stage_progress j
         end;
       metadata :=
         match md with
         | Some d =>
             if dict_truthy (Some d)
             then Some (d ∪ (if dict_truthy (metadata j)
                             then default ∅ (metadata j) else ∅))
             else metadata j
         | None => metadata j
         end;
       config := config j;
       task_id := task_id j |}.
Proof.
  destruct j as [i v s pr st en em ed spj mdj cf tk].
  unfold update_progress.
  destruct sp as [sp|]; [destruct (dict_truthy (Some sp)) eqn:Hsp|];
  (destruct md as [md|]; [destruct (dict_truthy (Some md)) eqn:Hmd|]);
  destruct stage as [s'|], p as [p|];
  cbn [id video_id status progress start_time end_time error_message error_details
       stage_progress metadata config task_id set_status set_progress
       set_stage_progress set_metadata set_end_time default from_option];
  unfold Datatypes.id; cbv zeta;
  match goal with
  | |- context [Qle_bool 100 ?q && negb (bool_decide (?x = ERROR))] =>
      destruct (Qle_bool 100 q && negb (bool_decide (x = ERROR)))
  end;
  try destruct en; reflexivity.
Qed.

(** X1.  Calling [update_progress] a second time with the same arguments
    changes nothing, whatever the clock reads of the two calls are. *)
Theorem update_progress_idempotent
    (stage : option ProcessingStage.t) (p : option Q)
    (sp : option (gmap string Q)) (md : option (gmap string json))
    (now1 now2 : datetime) (j : ProcessingJob.t) :
  update_progress stage p sp md now2 (update_progress stage p sp md now1 j)
  = update_progress stage p sp md now1 j.
Proof.
  rewrite (update_progress_fields stage p sp md now1 j).
  rewrite update_progress_fields.
  cbn [id video_id status progress start_time end_time error_message error_details
       stage_progress metadata config task_id].
  set (current := default (status j) stage).
  set (stored := match p with Some p0 => py_min 100 (py_max 0 p0) | None => progress j end).
  assert (Hstored : match p with Some p0 => py_min 100 (py_max 0 p0) | None => stored end
                    = stored) by (destruct p; reflexivity).
  rewrite Hstored.
  destruct (Qle_bool 100 stored && negb (bool_decide (current = ERROR))) eqn:Hdone.
  - assert (Hcur : Qle_bool 100 stored
                   && negb (bool_decide (default COMPLETE stage = ERROR)) = true).
    { destruct stage as [s|]; [exact Hdone|].
      apply andb_true_iff in Hdone as [-> _]. reflexivity. }
    rewrite Hcur. f_equal.
    + destruct sp as [d|]; [|reflexivity].
      destruct (dict_truthy (Some d)) eqn:Hd; [|reflexivity].
      rewrite (dict_truthy_union _ _ Hd). cbn [default from_option].
      unfold Datatypes.id. rewrite union_absorb. reflexivity.
    + destruct md as [d|]; [|reflexivity].
      destruct (dict_truthy (Some d)) eqn:Hd; [|reflexivity].
      rewrite (dict_truthy_union _ _ Hd). cbn [default from_option].
      unfold Datatypes.id. rewrite union_absorb. reflexivity.
  - assert (Hcur : default current stage = current)
      by (subst current; destruct stage; reflexivity).
    rewrite Hcur, Hdone. f_equal.
    + destruct sp as [d|]; [|reflexivity].
      destruct (dict_truthy (Some d)) eqn:Hd; [|reflexivity].
      rewrite (dict_truthy_union _ _ Hd). cbn [default from_option].
      unfold Datatypes.id. rewrite union_absorb. reflexivity.
    + destruct md as [d|]; [|reflexivity].
      destruct (dict_truthy (Some d)) eqn:Hd; [|reflexivity].
      rewrite (dict_truthy_union _ _ Hd). cbn [default from_option].
      unfold Datatypes.id. rewrite union_absorb. reflexivity.
Qed.

(** X2.  What [update_progress] does to the stage.  Without a stage
    argument a terminal stage is never left and any other stage either
    stays or becomes [COMPLETE].  With a stage argument the job takes that
    stage, whatever stage it was in, unless the completion check promotes
    it to [COMPLETE]. *)
Theorem update_progress_stage_transitions
    (p : option Q) (sp : option (gmap string Q)) (md : option (gmap string json))
    (now : datetime) (j : ProcessingJob.t) :
  (terminal (status j) = true ->
   status (update_progress None p sp md now j) = status j) /\
  (status (update_progress None p sp md now j) = status j \/
   status (update_progress None p sp md now j) = COMPLETE) /\
  (forall s,
     status (update_progress (Some s) p sp md now j) = s \/
     (status (update_progress (Some s) p sp md now j) = COMPLETE /\ s <> ERROR)).
Proof.
  split; [|split].
  - intros Hterm. rewrite update_progress_fields.
    cbn [status default from_option]. unfold Datatypes.id.
    destruct (status j); try discriminate Hterm.
    + match goal with
      | |- (if ?c then _ else _) = _ => destruct c; reflexivity
      end.
    + cbn. rewrite andb_false_r. reflexivity.
  - rewrite update_progress_fields. cbn [status default from_option].
    match goal with
    | |- (if ?c then _ else _) = _ \/ _ => destruct c; [right|left]; reflexivity
    end.
  - intros s. rewrite update_progress_fields. cbn [status default from_option].
    unfold Datatypes.id.
    match goal with
    | |- (if ?c then _ else _) = _ \/ _ => destruct c eqn:E
    end.
    + right. split; [reflexivity|].
      apply andb_true_iff in E as [_ E].
      apply negb_true_iff, bool_decide_eq_false in E. exact E.
    + left. reflexivity.
Qed.

Lemma update_progress_stage_transitions_witness :
  status (update_progress None (Some 40%Q) None None 1000%Z Samples.failed_job) = ERROR.
Proof.
  destruct (update_progress_stage_transitions (Some 40%Q) None None 1000%Z
              Samples.failed_job) as [Hterm _].
  rewrite Hterm; reflexivity.
Defined.

(** X3.  Every operation of the job keeps the progress inside [0, 100]:
    [update_progress] with any arguments, [mark_error] and [mark_complete]. *)
Theorem job_operations_keep_progress_in_range (j : ProcessingJob.t) :
  (0 <= progress j <= 100)%Q ->
  (forall stage p sp md now,
     (0 <= progress (update_progress stage p sp md now j) <= 100)%Q) /\
  (forall msg details t_end t_entry,
     (0 <= progress (fst (mark_error msg details t_end t_entry j)) <= 100)%Q) /\
  (forall n now, (0 <= progress (mark_complete n now j) <= 100)%Q).
Proof.
  intros Hj. repeat split.
  - rewrite update_progress_fields. cbn [progress].
    destruct p as [p|]; [apply clamp_range|apply Hj].
  - rewrite update_progress_fields. cbn [progress].
    destruct p as [p|]; [apply clamp_range|apply Hj].
  - destruct (mark_error_fields msg details t_end t_entry j)
      as (_ & _ & _ & _ & -> & _). apply Hj.
  - destruct (mark_error_fields msg details t_end t_entry j)
      as (_ & _ & _ & _ & -> & _). apply Hj.
  - unfold mark_complete. destruct n as [n|], (end_time _);
      try destruct (dict_truthy _); cbn; lra.
  - unfold mark_complete. destruct n as [n|], (end_time _);
      try destruct (dict_truthy _); cbn; lra.
Qed.

Lemma job_operations_keep_progress_in_range_witness :
  (0 <= progress (update_progress None (Some (-3)%Q) None None 1%Z Samples.running_job)
   <= 100)%Q.
Proof.
  destruct (job_operations_keep_progress_in_range Samples.running_job) as [Hu _].
  - split; vm_compute; discriminate.
  - apply Hu.
Defined.

(** X4.  A stage progress written through [update_progress] is read back by
    [get_progress_percentage]; a stage the update does not mention keeps
    the value it had, when the job already had a stage-progress map. *)
Theorem stage_progress_round_trip
    (s : ProcessingStage.t) (x : Q) (d : gmap string Q)
    (stage : option ProcessingStage.t) (p : option Q)
    (md : option (gmap string json)) (now : datetime) (j : ProcessingJob.t) :
  d !! value s = Some x ->
  get_progress_percentage (Some s) (update_progress stage p (Some d) md now j) = x /\
  (forall s',
     d !! value s' = None -> dict_truthy (stage_progress j) = true ->
     get_progress_percentage (Some s') (update_progress stage p (Some d) md now j)
     = get_progress_percentage (Some s') j).
Proof.
  intros Hd. pose proof (dict_truthy_lookup _ _ _ Hd) as Ht.
  rewrite update_progress_fields. unfold get_progress_percentage.
  cbn [stage_progress]. rewrite Ht, (dict_truthy_union _ _ Ht).
  cbn [default from_option]. unfold Datatypes.id. split.
  - rewrite (lookup_union_Some_l _ _ _ _ Hd). reflexivity.
  - intros s' Hs' Hj. rewrite Hj.
    rewrite lookup_union_r by exact Hs'. reflexivity.
Qed.

Lemma stage_progress_round_trip_witness :
  get_progress_percentage (Some FINALIZING)
    (update_progress None None (Some {[ "finalizing" := 42%Q ]}) None 1%Z
       Samples.running_job) = 42%Q.
Proof.
  apply (stage_progress_round_trip FINALIZING 42%Q {[ "finalizing" := 42%Q ]}
           None None None 1%Z Samples.running_job).
  reflexivity.
Defined.

(** What [mark_complete] assigns. *)
Lemma mark_complete_fields (n : option Z) (now : datetime) (j : ProcessingJob.t) :
  let j' := mark_complete n now j in
  status j' = COMPLETE /\ progress j' = 100%Q /\
  end_time j' = Some (default now (end_time j)) /\
  error_message j' = error_message j /\
  processing_errors j' = processing_errors j.
Proof.
  destruct j as [i v s pr st en em ed spj mdj cf tk].
  unfold mark_complete, processing_errors.
  destruct n as [c|], en as [e|];
    cbn [end_time set_status set_progress set_end_time metadata];
    try destruct (dict_truthy mdj) eqn:Hd; repeat split; try reflexivity.
  all: destruct mdj as [md|]; [|discriminate Hd];
    cbn [metadata set_metadata default from_option]; unfold Datatypes.id;
    rewrite lookup_insert_ne by discriminate; reflexivity.
Qed.

(** X5.  The two terminal marks are not guarded against each other.
    [mark_complete] on a job that [mark_error] has failed gives a job in
    [COMPLETE] with progress 100 that still carries the error message and
    the end time of the failure.  [mark_error] on a job that
    [mark_complete] has finished raises [UnboundLocalError], because the
    end time is set, and leaves the job in [ERROR] with progress 100 and
    its error history as it was. *)
Theorem terminal_marks_are_not_guarded
    (msg : string) (det : json) (n : option Z) (t_end t_entry now : datetime)
    (j : ProcessingJob.t) :
  (let failed := fst (mark_error msg det t_end t_entry j) in
   let revived := mark_complete n now failed in
   status revived = COMPLETE /\ is_complete revived = true /\
   progress revived = 100%Q /\ error_message revived = Some msg /\
   end_time revived = Some (default t_end (end_time j))) /\
  (forall l,
     processing_errors j = Some l ->
     let finished := mark_complete n now j in
     let '(j', r) := mark_error msg det t_end t_entry finished in
     r = Raise (UnboundLocalError "datetime") /\
     status j' = ERROR /\ progress j' = 100%Q /\
     processing_errors j' = Some l /\
     end_time j' = Some (default now (end_time j))).
Proof.
  split.
  - cbv zeta.
    destruct (mark_error_fields msg det t_end t_entry j)
      as (_ & Hmsg & _ & Hend & _).
    destruct (mark_complete_fields n now (fst (mark_error msg det t_end t_entry j)))
      as (Hs & Hp & He & Hm & _).
    cbv zeta in Hmsg, Hend, Hs, Hp, He, Hm.
    unfold is_complete. rewrite Hs, Hp, He, Hm, Hmsg, Hend.
    repeat split; reflexivity.
  - intros l Hl. cbv zeta.
    destruct (mark_complete_fields n now j) as (Hs & Hp & He & _ & Herr).
    cbv zeta in Hs, Hp, He, Herr.
    pose proof (mark_error_again msg det t_end t_entry (mark_complete n now j)
                  (default now (end_time j)) l He) as Hagain.
    rewrite Herr in Hagain. specialize (Hagain Hl).
    destruct (mark_error_fields msg det t_end t_entry (mark_complete n now j))
      as (Hs' & _ & _ & Hend' & Hp' & _).
    cbv zeta in Hs', Hend', Hp'.
    destruct (mark_error msg det t_end t_entry (mark_complete n now j)) as [j' r].
    cbn [fst] in Hs', Hend', Hp'.
    destruct Hagain as (Hr & Hhist & _).
    rewrite Hs', Hp', Hp, Hend', He. repeat split; assumption.
Qed.

Lemma terminal_marks_are_not_guarded_witness :
  snd (mark_error "late" JNull 7%Z 8%Z (mark_complete None 5%Z Samples.running_job))
  = Raise (UnboundLocalError "datetime").
Proof.
  pose proof (terminal_marks_are_not_guarded "late" JNull None 7%Z 8%Z 5%Z
                Samples.running_job) as [_ H].
  specialize (H [] eq_refl). cbv zeta in H.
  destruct (mark_error "late" JNull 7%Z 8%Z (mark_complete None 5%Z Samples.running_job))
    as [j' r].
  apply H.
Defined.
End JobOperationFacts.

(** ** Elapsed and remaining time *)

Section TimeFacts.
Import ProcessingStage ProcessingJob.

Lemma total_seconds_le (a b : Z) : (a <= b)%Z -> (total_seconds a <= total_seconds b)%Q.
Proof. intros H. unfold total_seconds, Qle. cbn. lia. Qed.

(** X6.  A job that has not started has elapsed time 0; a job with an end
    time has the elapsed time from start to end, whatever the clock says;
    and the elapsed time of a job still running grows with the clock. *)
Theorem time_elapsed_cases (j : ProcessingJob.t) (now now' : datetime) :
  (start_time j = None -> time_elapsed now j = 0%Q) /\
  (forall s e, start_time j = Some s -> end_time j = Some e ->
     time_elapsed now j = total_seconds (e - s)) /\
  (end_time j = None -> (now <= now')%Z ->
     (time_elapsed now j <= time_elapsed now' j)%Q).
Proof.
  unfold time_elapsed. split; [|split].
  - intros ->. reflexivity.
  - intros s e -> ->. reflexivity.
  - intros -> Hle. destruct (start_time j) as [s|]; [|lra].
    cbn [default from_option]. apply total_seconds_le. unfold Datatypes.id. lia.
Qed.

Lemma time_elapsed_cases_witness :
  time_elapsed 5000%Z Samples.failed_job = total_seconds (950 - 900).
Proof.
  destruct (time_elapsed_cases Samples.failed_job 5000%Z 5000%Z) as (_ & H & _).
  apply H; reflexivity.
Defined.

(** Rounding keeps a mantissa that is not negative so. *)
Lemma shr_1_nonneg (mrs : shr_record) : (0 <= shr_m mrs)%Z -> (0 <= shr_m (shr_1 mrs))%Z.
Proof.
  destruct mrs as [m r s]. cbn [shr_m]. intros H.
  destruct m as [|[p|p|]|p]; cbn; lia.
Qed.

Lemma iter_shr_1_nonneg (p : positive) (mrs : shr_record) :
  (0 <= shr_m mrs)%Z -> (0 <= shr_m (SpecFloat.iter_pos shr_1 p mrs))%Z.
Proof.
  revert mrs. induction p as [p IH|p IH|]; intros mrs H; cbn [SpecFloat.iter_pos].
  - apply IH, IH, shr_1_nonneg, H.
  - apply IH, IH, H.
  - apply shr_1_nonneg, H.
Qed.

Lemma shr_fexp_nonneg (m e : Z) (l : location) :
  (0 <= m)%Z -> (0 <= shr_m (fst (shr_fexp 53 1024 m e l)))%Z.
Proof.
  intros H. unfold shr_fexp, shr.
  assert (H0 : (0 <= shr_m (shr_record_of_loc m l))%Z)
    by (destruct l as [|[]]; exact H).
  destruct (_ - e)%Z; cbn [fst]; [exact H0|apply iter_shr_1_nonneg, H0|exact H0].
Qed.

Lemma binary_round_aux_sign (s : bool) (m e : Z) (l : location) :
  (0 <= m)%Z ->
  match binary_round_aux 53 1024 s m e l with
  | S754_zero s' | S754_infinity s' | S754_finite s' _ _ => s' = s
  | S754_nan => False
  end.
Proof.
  intros H. unfold binary_round_aux.
  pose proof (shr_fexp_nonneg m e l H) as H1.
  destruct (shr_fexp 53 1024 m e l) as [mrs' e']. cbn [fst] in H1.
  assert (H2 : (0 <= round_nearest_even (shr_m mrs') (loc_of_shr_record mrs'))%Z).
  { unfold round_nearest_even. destruct (loc_of_shr_record mrs') as [|[]];
      try destruct (Z.even _); lia. }
  pose proof (shr_fexp_nonneg _ e' loc_Exact H2) as H3.
  destruct (shr_fexp 53 1024 _ e' loc_Exact) as [mrs'' e'']. cbn [fst] in H3.
  destruct (shr_m mrs'') as [|p|p]; [reflexivity| |lia].
  destruct (e'' <=? _)%Z; reflexivity.
Qed.

Lemma float_of_Q_sign (q : Q) :
  match float_of_Q q with
  | S754_zero s | S754_infinity s | S754_finite s _ _ => s = (Qnum q <? 0)%Z
  | S754_nan => False
  end.
Proof.
  unfold float_of_Q. destruct (Qnum q) as [|n|n]; [reflexivity| |].
  - destruct (SFdiv_core_binary 53 1024 (Z.pos n) 0 (Z.pos (Qden q)) 0) as [[mz ez] lz] eqn:E.
    apply binary_round_aux_sign.
    unfold SFdiv_core_binary in E.
    destruct (Z.div_eucl _ _) as [q0 r0] eqn:Ediv in E. injection E as <- _ _.
    match type of Ediv with Z.div_eucl ?a ?b = _ =>
      pose proof (Z.div_eucl_eq a b ltac:(lia)) as Heq;
      pose proof (Z.mod_pos_bound a b ltac:(lia)) as Hmod;
      assert (Ha : (0 <= a)%Z)
    end.
    { destruct (_ - _ - _)%Z; try lia. apply Z.shiftl_nonneg. lia. }
    rewrite Ediv in Heq. unfold Z.modulo in Hmod. rewrite Ediv in Hmod. nia.
  - destruct (SFdiv_core_binary 53 1024 (Z.pos n) 0 (Z.pos (Qden q)) 0) as [[mz ez] lz] eqn:E.
    apply binary_round_aux_sign.
    unfold SFdiv_core_binary in E.
    destruct (Z.div_eucl _ _) as [q0 r0] eqn:Ediv in E. injection E as <- _ _.
    match type of Ediv with Z.div_eucl ?a ?b = _ =>
      pose proof (Z.div_eucl_eq a b ltac:(lia)) as Heq;
      pose proof (Z.mod_pos_bound a b ltac:(lia)) as Hmod;
      assert (Ha : (0 <= a)%Z)
    end.
    { destruct (_ - _ - _)%Z; try lia. apply Z.shiftl_nonneg. lia. }
    rewrite Ediv in Heq. unfold Z.modulo in Hmod. rewrite Ediv in Hmod. nia.
Qed.

Lemma float_of_Q_nonpos (q : Q) :
  (q <= 0)%Q -> float_le (float_of_Q q) (float_of_Q 0) = true.
Proof.
  intros H. pose proof (float_of_Q_sign q) as Hs.
  assert (Hn : (Qnum q <= 0)%Z) by (unfold Qle in H; cbn in H; lia).
  unfold float_le. change (float_of_Q 0) with (S754_zero false).
  destruct (Qnum q) as [|n|n] eqn:En; [|lia|].
  - unfold float_of_Q. rewrite En. reflexivity.
  - destruct (float_of_Q q) as [s|s| |s m e]; try contradiction; subst s; reflexivity.
Qed.

(** X7.  [estimate_remaining_time] gives no estimate when the progress is
    not positive, the job has not started, or no time has elapsed.  An
    estimate is never negative, and the only exceptions are those of
    [int] on a float that is not finite.  The estimate is computed on
    floats: 97 seconds into a job at progress 97 it is 2, the floats
    rounding [97 * (100 / 97) - 97] below 3; and a progress so small that
    [100 / progress] overflows makes the call raise [OverflowError]. *)
Theorem estimate_remaining_time_cases (now : datetime) (j : ProcessingJob.t) :
  ((progress j <= 0)%Q \/ start_time j = None \/ (time_elapsed now j <= 0)%Q ->
   estimate_remaining_time now j = Ok None) /\
  (forall r, estimate_remaining_time now j = Ok (Some r) -> (0 <= r)%Z) /\
  (forall e,
     estimate_remaining_time now j = Raise e ->
     e = OverflowError "cannot convert float infinity to integer" \/
     e = ValueError "cannot convert float NaN to integer") /\
  estimate_remaining_time 97000900%Z (set_progress 97 Samples.running_job)
  = Ok (Some 2%Z) /\
  estimate_remaining_time 97000900%Z
    (set_progress (1 # 2 ^ 1074) Samples.running_job)
  = Raise (OverflowError "cannot convert float infinity to integer").
Proof.
  split; [|split; [|split; [|split; vm_compute; reflexivity]]].
  - unfold estimate_remaining_time. intros [Hp|[Hs|He]].
    + apply Qle_bool_iff in Hp. rewrite Hp. reflexivity.
    + rewrite Hs. rewrite orb_true_r. reflexivity.
    + destruct (Qle_bool (progress j) 0 || _); [reflexivity|].
      rewrite (float_of_Q_nonpos _ He). reflexivity.
  - intros r. unfold estimate_remaining_time.
    destruct (Qle_bool (progress j) 0 || _); [discriminate|].
    destruct (float_le _ _); [discriminate|].
    destruct (float_int _) as [seconds|e]; [|discriminate].
    intros [= <-]. destruct (0 <? seconds)%Z eqn:E; [|lia].
    apply Z.ltb_lt in E. lia.
  - intros e. unfold estimate_remaining_time.
    destruct (Qle_bool (progress j) 0 || _); [discriminate|].
    destruct (float_le _ _); [discriminate|].
    match goal with
    | |- context [float_int ?x] => destruct x as [s|s| |s m ex]
    end; cbn [float_int]; intros [= <-] || discriminate; auto.
Qed.

Lemma estimate_remaining_time_cases_witness :
  estimate_remaining_time 2900%Z Samples.running_job = Ok None.
Proof.
  destruct (estimate_remaining_time_cases 2900%Z Samples.running_job) as [H _].
  apply H. left. vm_compute. discriminate.
Defined.

(** X8.  Stage values round-trip through the enum: [ProcessingStage(v)]
    returns a stage exactly when [v] is that stage's value, and raises
    [ValueError] for every other string. *)
Theorem stage_of_value_round_trip :
  (forall s, of_value (value s) = Ok s) /\
  (forall v s, of_value v = Ok s -> value s = v) /\
  (forall v, (forall s, value s <> v) -> exists msg, of_value v = Raise (ValueError msg)).
Proof.
  split; [|split].
  - intros s. destruct s; reflexivity.
  - intros v s. unfold of_value.
    destruct (List.find _ members) as [[n s']|] eqn:Hf; [|discriminate].
    intros [= <-]. apply find_some in Hf as [_ Hf]. cbn in Hf.
    apply String.eqb_eq, Hf.
  - intros v Hv. unfold of_value.
    destruct (List.find _ members) as [[n s']|] eqn:Hf; [|eauto].
    apply find_some in Hf as [_ Hf]. cbn in Hf.
    apply String.eqb_eq in Hf. destruct (Hv s' Hf).
Qed.
End TimeFacts.

(** ** Durations and timestamps *)

Section DurationFacts.

Lemma hms_floor_parts (n : Z) (d : positive) :
  let q := (n / Z.pos d)%Z in
  (n / (Z.pos d * 3600) = q / 3600)%Z /\
  ((n - 3600 * (q / 3600) * Z.pos d) / (Z.pos d * 60) = (q - 3600 * (q / 3600)) / 60)%Z /\
  (Z.quot (n - 60 * (q / 60) * Z.pos d) (Z.pos d) = q - 60 * (q / 60))%Z.
Proof.
  cbv zeta. set (D := Z.pos d). assert (HD : (0 < D)%Z) by (subst D; lia).
  split; [|split].
  - rewrite Z.div_div by lia. reflexivity.
  - rewrite <- Z.div_div by lia. f_equal.
    replace (n - 3600 * (n / D / 3600) * D)%Z
      with (n + (- (3600 * (n / D / 3600))) * D)%Z by ring.
    rewrite Z.div_add by lia. ring.
  - rewrite Z.quot_div_nonneg; [| |lia].
    + replace (n - 60 * (n / D / 60) * D)%Z
        with (n + (- (60 * (n / D / 60))) * D)%Z by ring.
      rewrite Z.div_add by lia. ring.
    + pose proof (Z.mul_div_le n D HD).
      pose proof (Z.mul_div_le (n / D) 60 ltac:(lia)).
      nia.
Qed.

Lemma hms_recompose_Z (q : Z) :
  (0 <= (q - 3600 * (q / 3600)) / 60 < 60)%Z /\
  (0 <= q - 60 * (q / 60) < 60)%Z /\
  (q / 3600 * 3600 + (q - 3600 * (q / 3600)) / 60 * 60 + (q - 60 * (q / 60)) = q)%Z.
Proof.
  pose proof (Z.mod_pos_bound q 3600 ltac:(lia)) as Hr.
  rewrite Z.mod_eq in Hr by lia.
  generalize dependent (q / 3600)%Z. intros k Hr.
  assert (Hq : (q = k * 60 * 60 + (q - 3600 * k))%Z) by ring.
  assert (Hq60 : (q / 60 = k * 60 + (q - 3600 * k) / 60)%Z).
  { rewrite Hq at 1. apply Z.div_add_l. lia. }
  rewrite Hq60.
  generalize dependent (q - 3600 * k)%Z. intros r Hr Hq Hq60.
  pose proof (Z.mod_pos_bound r 60 ltac:(lia)) as Hs.
  rewrite Z.mod_eq in Hs by lia.
  assert (Hm : (r / 60 < 60)%Z) by (apply Z.div_lt_upper_bound; lia).
  assert (H0 : (0 <= r / 60)%Z) by (apply Z.div_pos; lia).
  generalize dependent (r / 60)%Z. intros m. intros. lia.
Qed.

(** The three parts in closed form, over the whole seconds of the input. *)
Lemma hours_minutes_secs_floor (seconds : Q) :
  hours_minutes_secs seconds
  = (Qfloor seconds / 3600,
     (Qfloor seconds - 3600 * (Qfloor seconds / 3600)) / 60,
     Qfloor seconds - 60 * (Qfloor seconds / 60))%Z.
Proof.
  destruct seconds as [n d].
  unfold hours_minutes_secs, py_floordiv, py_mod, py_floordiv, py_int, Qfloor, Qdiv,
    Qmult, Qinv, Qminus, Qplus, Qopp, inject_Z.
  cbn [Qnum Qden].
  rewrite !Z.quot_1_r, !Pos.mul_1_l, !Pos.mul_1_r, !Z.mul_1_r, !Pos2Z.inj_mul.
  destruct (hms_floor_parts n d) as (Hh & Hm & Hs). cbv zeta in Hh, Hm, Hs.
  change (Z.pos 3600) with 3600%Z. change (Z.pos 60) with 60%Z.
  rewrite Hh.
  replace (n + - (3600 * (n / Z.pos d / 3600)) * Z.pos d)%Z
    with (n - 3600 * (n / Z.pos d / 3600) * Z.pos d)%Z by ring.
  rewrite Hm.
  assert (H60 : (n / (Z.pos d * 60) = n / Z.pos d / 60)%Z)
    by (rewrite Z.div_div by lia; reflexivity).
  rewrite H60.
  replace (n + - (60 * (n / Z.pos d / 60)) * Z.pos d)%Z
    with (n - 60 * (n / Z.pos d / 60) * Z.pos d)%Z by ring.
  rewrite Hs. reflexivity.
Qed.

(** X9.  For a float from 0 up to [2**53], where [//] and [%] round
    nothing, the hours, minutes and seconds that the formatters compute
    from it: none is negative, the minutes and the seconds lie in [0, 60),
    and the three recompose to the whole seconds of the input. *)
Theorem hours_minutes_secs_recompose (seconds : Q) :
  (0 <= seconds)%Q -> (seconds < 9007199254740992)%Q ->
  let '(hours, minutes, secs) := hours_minutes_secs seconds in
  (0 <= hours)%Z /\ (0 <= minutes < 60)%Z /\ (0 <= secs < 60)%Z /\
  (hours * 3600 + minutes * 60 + secs = Qfloor seconds)%Z.
Proof.
  intros H0 _. rewrite hours_minutes_secs_floor.
  assert (Hf : (0 <= Qfloor seconds)%Z).
  { change 0%Z with (Qfloor 0). apply Qfloor_resp_le, H0. }
  split; [apply Z.div_pos; lia|].
  exact (hms_recompose_Z (Qfloor seconds)).
Qed.

Lemma hours_minutes_secs_recompose_witness :
  let '(hours, minutes, secs) := hours_minutes_secs (7451 # 2) in
  (0 <= hours)%Z /\ (0 <= minutes < 60)%Z /\ (0 <= secs < 60)%Z /\
  (hours * 3600 + minutes * 60 + secs = Qfloor (7451 # 2))%Z.
Proof.
  apply (hours_minutes_secs_recompose (7451 # 2)); vm_compute; [discriminate|reflexivity].
Defined.

Lemma string_length_app (a b : string) :
  String.length (a +:+ b) = String.length a + String.length b.
Proof. induction a as [|c a IH]; simpl; [reflexivity|]. rewrite IH. reflexivity. Qed.

Lemma pad2_length (z : Z) : (0 <= z < 100)%Z -> String.length (pad2 z) = 2.
Proof.
  intros Hz.
  assert (H : forallb (fun n => Nat.eqb (String.length (pad2 (Z.of_nat n))) 2)
                      (seq 0 100) = true) by (vm_compute; reflexivity).
  rewrite forallb_forall in H.
  specialize (H (Z.to_nat z)). rewrite Z2Nat.id in H by lia.
  apply Nat.eqb_eq, H. apply in_seq. lia.
Qed.

(** X10.  For a number of seconds from 0 up to 100 hours, the timestamp
    written for chapters and transcript lines is the fixed-width form
    HH:MM:SS of eight characters; the two formatters agree on every input;
    a missing value is written "00:00:00". *)
Theorem timestamp_is_fixed_width (seconds : Q) :
  (0 <= seconds)%Q -> (seconds < 360000)%Q ->
  String.length (Chapter.seconds_to_timestamp (Some seconds)) = 8 /\
  ASRProcessor._format_timestamp seconds = Chapter.seconds_to_timestamp (Some seconds) /\
  Chapter.seconds_to_timestamp None = "00:00:00".
Proof.
  intros H0 H1. split; [|split; reflexivity].
  unfold Chapter.seconds_to_timestamp.
  rewrite hours_minutes_secs_floor.
  destruct (hms_recompose_Z (Qfloor seconds)) as (Hm & Hs & Hsum).
  assert (Hf0 : (0 <= Qfloor seconds)%Z).
  { change 0%Z with (Qfloor 0). apply Qfloor_resp_le, H0. }
  assert (Hf1 : (Qfloor seconds < 360000)%Z).
  { rewrite Zlt_Qlt. eapply Qle_lt_trans; [apply Qfloor_le|]. exact H1. }
  rewrite !string_length_app, !pad2_length by lia. reflexivity.
Qed.

Lemma timestamp_is_fixed_width_witness :
  String.length (Chapter.seconds_to_timestamp (Some 3725%Q)) = 8.
Proof.
  apply (timestamp_is_fixed_width 3725%Q); vm_compute; [discriminate|reflexivity].
Defined.
End DurationFacts.

(** ** Generation statistics and the retry loop *)

Section StatisticsFacts.
Import LLMProcessor.

Lemma py_min_of_lower (xs : list Q) :
  forall x, (py_min_of x xs <= x)%Q /\ Forall (fun y => (py_min_of x xs <= y)%Q) xs.
Proof.
  unfold py_min_of. induction xs as [|y xs IH]; intros x; cbn [fold_left].
  - split; [lra|constructor].
  - destruct (IH (py_min x y)) as [Hx Hxs].
    destruct (py_min_bounds x y) as [Hmx Hmy].
    split; [lra|]. constructor; [lra|exact Hxs].
Qed.

Lemma py_max_of_upper (xs : list Q) :
  forall x, (x <= py_max_of x xs)%Q /\ Forall (fun y => (y <= py_max_of x xs)%Q) xs.
Proof.
  unfold py_max_of. induction xs as [|y xs IH]; intros x; cbn [fold_left].
  - split; [lra|constructor].
  - destruct (IH (py_max x y)) as [Hx Hxs].
    destruct (py_max_bounds x y) as [Hmx Hmy].
    split; [lra|]. constructor; [lra|exact Hxs].
Qed.

Lemma py_min_of_elem (xs : list Q) : forall x, py_min_of x xs ∈ x :: xs.
Proof.
  unfold py_min_of. induction xs as [|y xs IH]; intros x; cbn [fold_left]; [left|].
  specialize (IH (py_min x y)). apply elem_of_cons in IH as [->|IH].
  - unfold py_min. destruct (Qltb y x); [right; left|left].
  - right. right. exact IH.
Qed.

Lemma py_max_of_elem (xs : list Q) : forall x, py_max_of x xs ∈ x :: xs.
Proof.
  unfold py_max_of. induction xs as [|y xs IH]; intros x; cbn [fold_left]; [left|].
  specialize (IH (py_max x y)). apply elem_of_cons in IH as [->|IH].
  - unfold py_max. destruct (Qltb x y); [right; left|left].
  - right. right. exact IH.
Qed.

Lemma disjoint_filters_length {A} (f g : A -> bool) (l : list A) :
  (forall x, f x = true -> g x = false) ->
  length (List.filter f l) + length (List.filter g l) <= length l.
Proof.
  intros Hfg. induction l as [|x l IH]; cbn; [lia|].
  destruct (f x) eqn:Ef.
  - rewrite (Hfg x Ef). cbn. lia.
  - destruct (g x); cbn; lia.
Qed.

(** X11.  The statistics of a non-empty chapter list whose confidences
    are numbers: the total is the number of chapters, the minimum and the
    maximum reported are confidences of the list and every confidence lies
    between them, and the high-confidence and low-confidence counts
    together never exceed the total.  No chapters give the empty
    dictionary.  The average is the float that the sum and the division
    round to, which need not lie between the minimum and the maximum: for
    three chapters of confidence 0.1 it is the next float above 0.1. *)
Theorem generation_statistics_bounds (chapters : list candidate) :
  get_generation_statistics [] = [] /\
  (chapters <> [] ->
   exists avg mn mx hi lo,
     get_generation_statistics chapters
     = [ ("total_chapters", JInt (Z.of_nat (length chapters)));
         ("average_confidence", JDouble avg);
         ("min_confidence", JFloat mn);
         ("max_confidence", JFloat mx);
         ("high_confidence_chapters", JInt (Z.of_nat hi));
         ("low_confidence_chapters", JInt (Z.of_nat lo)) ] /\
     Forall (fun ch => (mn <= confidence ch <= mx)%Q) chapters /\
     mn ∈ confidence <$> chapters /\ mx ∈ confidence <$> chapters /\
     hi + lo <= length chapters) /\
  float_of_Q (1 # 10) = S754_finite false 7205759403792794 (-56) /\
  dict_get "average_confidence"
    (get_generation_statistics
       [ mk 0 "a" (1 # 10); mk 60 "b" (1 # 10); mk 120 "c" (1 # 10) ])
  = Some (JDouble (S754_finite false 7205759403792795 (-56))).
Proof.
  split; [reflexivity|]. split; [|split; vm_compute; reflexivity].
  intros Hne.
  destruct chapters as [|ch chs]; [congruence|].
  unfold get_generation_statistics. cbn [fmap list_fmap].
  do 5 eexists. split; [reflexivity|].
  set (c := confidence ch). set (cs := list_fmap _ _ confidence chs).
  destruct (py_min_of_lower cs c) as [Hmin Hmins].
  destruct (py_max_of_upper cs c) as [Hmax Hmaxs].
  assert (Hall : Forall (fun y => (py_min_of c cs <= y <= py_max_of c cs)%Q) (c :: cs)).
  { constructor; [lra|].
    rewrite Forall_forall in Hmins, Hmaxs |- *. intros y Hy.
    specialize (Hmins y Hy). specialize (Hmaxs y Hy). cbv beta in *. lra. }
  split; [|split; [|split]].
  - constructor; [split; [exact Hmin|exact Hmax]|].
    apply Forall_cons in Hall as [_ Hall]. subst cs.
    apply Forall_fmap in Hall. exact Hall.
  - exact (py_min_of_elem cs c).
  - exact (py_max_of_elem cs c).
  - assert (Hlen : length (ch :: chs) = length (c :: cs)).
    { subst cs. cbn [length]. change (list_fmap _ _ confidence chs) with (confidence <$> chs).
      rewrite length_fmap. reflexivity. }
    rewrite Hlen. apply disjoint_filters_length.
    intros x Hx. apply Qle_bool_iff in Hx. apply Qltb_false. lra.
Qed.

Lemma generation_statistics_bounds_witness :
  exists mn mx,
    dict_get "min_confidence" (get_generation_statistics Samples.scenario)
    = Some (JFloat mn) /\
    dict_get "max_confidence" (get_generation_statistics Samples.scenario)
    = Some (JFloat mx) /\
    Forall (fun ch => (mn <= confidence ch <= mx)%Q) Samples.scenario.
Proof.
  destruct (generation_statistics_bounds Samples.scenario) as (_ & H & _).
  destruct H as (avg & mn & mx & hi & lo & Heq & Hb & _).
  - discriminate.
  - exists mn, mx. rewrite Heq. repeat split; try reflexivity; exact Hb.
Defined.

(** X12.  The retry loop returns the candidates of the first attempt that
    parses any, whatever the earlier attempts did: an earlier attempt that
    raised or parsed nothing is passed over.  An exception of the third
    attempt propagates even when the first two only parsed nothing. *)
Theorem first_parsed_attempt_wins
    (a : adapter) (max_chapters : Z) (m : Q) (i : nat) (chapters : list candidate) :
  i < 3 ->
  (forall k, k < i -> attempt a k = Ok [] \/ exists e, attempt a k = Raise e) ->
  (attempt a i = Ok chapters -> chapters <> [] ->
   _generate_with_retry a max_chapters m 3 = Ok chapters) /\
  (forall e, i = 2 -> attempt a i = Raise e ->
   _generate_with_retry a max_chapters m 3 = Raise e).
Proof.
  intros Hi Hbefore.
  assert (Hskip : forall k, k < i -> k < 2 ->
            match attempt a k with
            | Ok [] => True
            | Ok (_ :: _) => False
            | Raise _ => True
            end).
  { intros k Hk _. destruct (Hbefore k Hk) as [-> | [e ->]]; exact I. }
  unfold _generate_with_retry. cbn [seq retry_loop Nat.sub Nat.eqb].
  split.
  - intros Hok Hne. destruct chapters as [|c cs]; [congruence|].
    destruct i as [|[|[|i]]]; try lia.
    + rewrite Hok. reflexivity.
    + pose proof (Hskip 0 ltac:(lia) ltac:(lia)) as H0.
      destruct (attempt a 0) as [[|]|]; try contradiction; rewrite Hok; reflexivity.
    + pose proof (Hskip 0 ltac:(lia) ltac:(lia)) as H0.
      pose proof (Hskip 1 ltac:(lia) ltac:(lia)) as H1.
      destruct (attempt a 0) as [[|]|]; try contradiction;
        destruct (attempt a 1) as [[|]|]; try contradiction; rewrite Hok; reflexivity.
  - intros e -> He.
    pose proof (Hskip 0 ltac:(lia) ltac:(lia)) as H0.
    pose proof (Hskip 1 ltac:(lia) ltac:(lia)) as H1.
    destruct (attempt a 0) as [[|]|]; try contradiction;
      destruct (attempt a 1) as [[|]|]; try contradiction; rewrite He; reflexivity.
Qed.

Lemma first_parsed_attempt_wins_witness :
  _generate_with_retry
    (mk_adapter (Ok tt)
       (fun k => match k with
                 | 0 => Raise (AdapterError "out of memory")
                 | _ => Ok Samples.scenario
                 end)) 15 30 3
  = Ok Samples.scenario.
Proof.
  apply (first_parsed_attempt_wins _ 15 30 1 Samples.scenario).
  - lia.
  - intros k Hk. right. destruct k; [eauto|lia].
  - reflexivity.
  - discriminate.
Defined.
End StatisticsFacts.

(** ** More on the validator *)

Section ValidatorOriginFacts.
Import LLMProcessor.

Lemma insert_by_perm {A} (before : A -> A -> bool) (x : A) (l : list A) :
  insert_by before x l ≡ₚ x :: l.
Proof.
  induction l as [|y l IH]; cbn; [reflexivity|].
  destruct (before x y); [reflexivity|].
  rewrite IH. apply Permutation_swap.
Qed.

Lemma sort_by_perm {A} (before : A -> A -> bool) (l : list A) : sort_by before l ≡ₚ l.
Proof.
  unfold sort_by. induction l as [|x l IH]; cbn; [reflexivity|].
  rewrite insert_by_perm, IH. reflexivity.
Qed.

(** X14.  Validated chapters of a non-empty candidate list are never
    invented: each is one of the candidates or the synthetic introduction,
    each starts before the video duration, and there are at most fifteen of
    them. *)
Theorem validated_chapters_come_from_candidates
    (chapters : list candidate) (d m : Q) :
  chapters <> [] ->
  length (_validate_and_process_chapters chapters d m) <= 15 /\
  (forall c, c ∈ _validate_and_process_chapters chapters d m ->
     (start_time c < d)%Q /\ (c ∈ chapters \/ c = introduction)).
Proof.
  intros Hne. split; [apply validated_chapters_at_most_15|].
  destruct chapters as [|c0 cs]; [congruence|].
  unfold _validate_and_process_chapters.
  set (prepared := List.filter _ _).
  assert (Hprep : forall c, c ∈ prepared ->
            (start_time c < d)%Q /\ (c ∈ c0 :: cs \/ c = introduction)).
  { intros c Hc. subst prepared. apply list_elem_of_In, filter_In in Hc as [Hc Hlt].
    apply Qltb_true in Hlt. split; [exact Hlt|].
    apply list_elem_of_In in Hc.
    assert (Hsort : forall x, x ∈ sorted_asc start_time (c0 :: cs) -> x ∈ c0 :: cs).
    { intros x Hx. unfold sorted_asc in Hx. rewrite sort_by_perm in Hx. exact Hx. }
    destruct (sorted_asc start_time (c0 :: cs)) as [|first rest];
      [apply elem_of_nil in Hc; contradiction|].
    destruct (Qltb 0 (start_time first)); [|left; apply Hsort, Hc].
    apply elem_of_cons in Hc as [->|Hc]; [right; reflexivity|left; apply Hsort, Hc]. }
  assert (Hmerged : forall c, c ∈ merge_close_chapters m prepared -> c ∈ prepared).
  { intros c Hc. eapply elem_of_sublist; [exact Hc|].
    pose proof (merge_from_sublist m prepared 0 []) as H. exact H. }
  intros c Hc. apply Hprep, Hmerged.
  destruct (Nat.ltb 15 _); [|exact Hc].
  unfold sorted_asc in Hc. rewrite sort_by_perm in Hc.
  eapply elem_of_sublist in Hc; [|apply sublist_take].
  unfold sorted_desc in Hc. rewrite sort_by_perm in Hc. exact Hc.
Qed.

Lemma validated_chapters_come_from_candidates_witness :
  length (_validate_and_process_chapters Samples.close_pair 100 30) <= 15.
Proof.
  apply (validated_chapters_come_from_candidates Samples.close_pair 100 30).
  discriminate.
Defined.
End ValidatorOriginFacts.

(** ** The chapter table *)

Section ChapterTableFacts.

Lemma map_as_fmap {A B} (f : A -> B) (l : list A) : map f l = f <$> l.
Proof. induction l as [|x l IH]; cbn; [reflexivity|]. rewrite IH. reflexivity. Qed.

Lemma insert_by_fmap {A} (before : A -> A -> bool) (f : A -> A) (x : A) (l : list A) :
  (forall a b, before (f a) (f b) = before a b) ->
  insert_by before (f x) (f <$> l) = f <$> insert_by before x l.
Proof.
  intros Hf. induction l as [|y l IH]; cbn; [reflexivity|].
  rewrite Hf. destruct (before x y); cbn; [reflexivity|]. rewrite IH. reflexivity.
Qed.

Lemma sort_by_fmap {A} (before : A -> A -> bool) (f : A -> A) (l : list A) :
  (forall a b, before (f a) (f b) = before a b) ->
  sort_by before (f <$> l) = f <$> sort_by before l.
Proof.
  intros Hf. unfold sort_by. induction l as [|x l IH]; cbn; [reflexivity|].
  rewrite IH. apply insert_by_fmap, Hf.
Qed.

Lemma filter_video_fmap (video : string) (f : Chapter.t -> Chapter.t) (l : list Chapter.t) :
  (forall c, Chapter.video_id (f c) = Chapter.video_id c) ->
  filter (fun c => Chapter.video_id c = video) (f <$> l)
  = f <$> filter (fun c => Chapter.video_id c = video) l.
Proof.
  intros Hf. induction l as [|c l IH]; [reflexivity|].
  rewrite fmap_cons, !filter_cons, Hf, IH.
  destruct (decide (Chapter.video_id c = video)); reflexivity.
Qed.

Lemma index_of_lookup (rows : list Chapter.t) :
  NoDup (Chapter.id <$> rows) ->
  forall p c, rows !! p = Some c -> Chapter.index_of (Chapter.id c) rows = Some p.
Proof.
  induction rows as [|r rows IH]; intros Hnd p c Hp; [discriminate|].
  rewrite fmap_cons in Hnd. apply NoDup_cons in Hnd as [Hr Hnd].
  destruct p as [|p]; cbn in Hp |- *.
  - injection Hp as ->. rewrite Nat.eqb_refl. reflexivity.
  - destruct (Nat.eqb (Chapter.id r) (Chapter.id c)) eqn:E.
    + apply Nat.eqb_eq in E. exfalso. apply Hr. rewrite E.
      apply list_elem_of_fmap. exists c. split; [reflexivity|].
      eapply list_elem_of_lookup_2, Hp.
    + rewrite (IH Hnd p c Hp). reflexivity.
Qed.

Lemma get_by_video_NoDup (video : string) (table : list Chapter.t) :
  NoDup (Chapter.id <$> table) -> NoDup (Chapter.id <$> Chapter.get_by_video video table).
Proof.
  intros Hnd. unfold Chapter.get_by_video, sorted_asc.
  rewrite sort_by_perm.
  eapply sublist_NoDup; [exact Hnd|].
  apply fmap_sublist, sublist_filter.
Qed.

(** A change of the [order] column alone commutes with the query. *)
Lemma get_by_video_fmap (video : string) (f : Chapter.t -> Chapter.t)
    (table : list Chapter.t) :
  (forall c, Chapter.set_order 0 (f c) = Chapter.set_order 0 c) ->
  Chapter.get_by_video video (f <$> table) = f <$> Chapter.get_by_video video table.
Proof.
  intros Hsame.
  assert (Hvid : forall c, Chapter.video_id (f c) = Chapter.video_id c).
  { intros c. exact (f_equal Chapter.video_id (Hsame c)). }
  assert (Hstart : forall c, Chapter.start_time (f c) = Chapter.start_time c).
  { intros c. exact (f_equal Chapter.start_time (Hsame c)). }
  unfold Chapter.get_by_video, sorted_asc.
  rewrite filter_video_fmap by exact Hvid.
  rewrite sort_by_fmap by (intros a b; rewrite !Hstart; reflexivity).
  reflexivity.
Qed.

Lemma update_order_as_fmap (video : string) (table : list Chapter.t) :
  Chapter.update_order video table
  = (fun c => match Chapter.index_of (Chapter.id c)
                      (Chapter.get_by_video video table) with
              | Some i => Chapter.set_order (S i) c
              | None => c
              end) <$> table.
Proof. unfold Chapter.update_order. rewrite map_as_fmap. reflexivity. Qed.

Lemma renumber_keeps_columns (ranked : list Chapter.t) (c : Chapter.t) :
  Chapter.set_order 0
    match Chapter.index_of (Chapter.id c) ranked with
    | Some i => Chapter.set_order (S i) c
    | None => c
    end
  = Chapter.set_order 0 c.
Proof. destruct (Chapter.index_of _ _); reflexivity. Qed.

(** [update_order] only writes the [order] column. *)
Lemma update_order_erase (video : string) (table : list Chapter.t) :
  Chapter.set_order 0 <$> Chapter.update_order video table
  = Chapter.set_order 0 <$> table.
Proof.
  rewrite update_order_as_fmap, <- list_fmap_compose. apply list_fmap_ext.
  intros i c _. apply renumber_keeps_columns.
Qed.

(** Read back by start time, the orders written are 1, 2, ..., n. *)
Lemma update_order_ranks (video : string) (table : list Chapter.t) :
  NoDup (Chapter.id <$> table) ->
  Chapter.order <$> Chapter.get_by_video video (Chapter.update_order video table)
  = seq 1 (length (Chapter.get_by_video video table)).
Proof.
  intros Hnd. rewrite update_order_as_fmap.
  rewrite get_by_video_fmap by (intros c; apply renumber_keeps_columns).
  pose proof (get_by_video_NoDup video table Hnd) as Hrnd.
  set (ranked := Chapter.get_by_video video table) in *.
  apply list_eq. intros p. rewrite !list_lookup_fmap.
  destruct (ranked !! p) as [c|] eqn:Hp; cbn.
  - rewrite (index_of_lookup ranked Hrnd p c Hp). cbn.
    symmetry. apply lookup_seq. split; [lia|].
    eapply lookup_lt_Some, Hp.
  - symmetry. apply lookup_seq_ge. apply lookup_ge_None, Hp.
Qed.

Lemma index_of_elem (rows : list Chapter.t) :
  forall k i, Chapter.index_of k rows = Some i ->
              exists r, r ∈ rows /\ Chapter.id r = k.
Proof.
  induction rows as [|r rows IH]; intros k i H; [discriminate|].
  cbn in H. destruct (Nat.eqb (Chapter.id r) k) eqn:E.
  - exists r. split; [left|apply Nat.eqb_eq, E].
  - destruct (Chapter.index_of k rows) as [i'|] eqn:E'; [|discriminate].
    destruct (IH k i' E') as (r' & Hr' & Hid). exists r'. split; [right|]; assumption.
Qed.

(** X15.  [update_order] renumbers the chapters of one video densely: read
    back in order of start time, their orders are 1, 2, ..., n.  The rows
    keep everything but their order, and rows of other videos are not
    touched.  The rows must have distinct primary keys. *)
Theorem update_order_is_dense (video : string) (table : list Chapter.t) :
  NoDup (Chapter.id <$> table) ->
  Chapter.order <$> Chapter.get_by_video video (Chapter.update_order video table)
  = seq 1 (length (Chapter.get_by_video video table)) /\
  Chapter.set_order 0 <$> Chapter.update_order video table
  = Chapter.set_order 0 <$> table /\
  (forall p c, table !! p = Some c -> Chapter.video_id c <> video ->
     Chapter.update_order video table !! p = Some c).
Proof.
  intros Hnd.
  split; [apply update_order_ranks, Hnd|]. split; [apply update_order_erase|].
  intros p c Hp Hv. rewrite update_order_as_fmap, list_lookup_fmap, Hp. cbn. f_equal.
  destruct (Chapter.index_of (Chapter.id c) (Chapter.get_by_video video table))
    as [i|] eqn:Hi; [|reflexivity].
  exfalso. apply Hv.
  destruct (index_of_elem _ _ _ Hi) as (r & Hr & Hid).
  assert (Hrt : r ∈ filter (fun c => Chapter.video_id c = video) table).
  { unfold Chapter.get_by_video, sorted_asc in Hr.
    rewrite sort_by_perm in Hr. exact Hr. }
  apply list_elem_of_filter in Hrt as [Hrv Hrt].
  assert (r = c).
  { apply list_elem_of_lookup in Hrt as [q Hq].
    assert (Hqp : q = p).
    { eapply NoDup_lookup; [exact Hnd| |].
      - rewrite list_lookup_fmap, Hq. reflexivity.
      - rewrite list_lookup_fmap, Hp. cbn. f_equal. symmetry. exact Hid. }
    subst q. congruence. }
  subst r. exact Hrv.
Qed.

Lemma update_order_is_dense_witness :
  Chapter.order
    <$> Chapter.get_by_video "v"
          (Chapter.update_order "v"
             [ Chapter.mk 0 "v" "Late" 300 None (1 # 2) true 7;
               Chapter.mk 1 "w" "Other" 5 None (1 # 2) true 9;
               Chapter.mk 2 "v" "Early" 10 None (1 # 2) true 7 ])
  = [1; 2].
Proof.
  apply (update_order_is_dense "v"
           [ Chapter.mk 0 "v" "Late" 300 None (1 # 2) true 7;
             Chapter.mk 1 "w" "Other" 5 None (1 # 2) true 9;
             Chapter.mk 2 "v" "Early" 10 None (1 # 2) true 7 ]).
  apply (bool_decide_unpack _). vm_compute. exact I.
Defined.
End ChapterTableFacts.

(** ** The generation entry point and the processing pipeline *)

Section PipelineFacts.
Import LLMProcessor ChapterProcessor.

Lemma call_runs (cb : option callback) (p : Q) (msg : string) (w : World) :
  call cb p msg w = (run (call cb p msg) w, Ok tt).
Proof. destruct cb; reflexivity. Qed.

Lemma job_update_progress_runs (k : string) stage p sp md (w : World) :
  job_update_progress k stage p sp md w
  = (run (job_update_progress k stage p sp md) w, Ok tt).
Proof. reflexivity. Qed.

Lemma job_checkpoint_runs (job : option ProcessingJob.t) (p : Q)
    (md : gmap string json) (w : World) :
  job_checkpoint job p md w = (run (job_checkpoint job p md) w, Ok tt).
Proof. destruct job; reflexivity. Qed.

(** A failure of the retry loop is the failure of the third attempt. *)
Lemma retry_raise_is_last (a : adapter) (max_chapters : Z) (m : Q) (e : exn) :
  _generate_with_retry a max_chapters m 3 = Raise e -> attempt a 2 = Raise e.
Proof.
  unfold _generate_with_retry. cbn [seq retry_loop Nat.sub Nat.eqb].
  destruct (attempt a 0) as [[|]|]; try discriminate;
    destruct (attempt a 1) as [[|]|]; try discriminate;
    destruct (attempt a 2) as [[|]|]; try discriminate; intros H; exact H.
Qed.

(** X16.  What [generate_chapters] can give for a video of known duration
    and a minimum chapter length that is not negative, for candidates
    whose start times are numbers and a progress callback that returns:
    either a list of at most fifteen chapters in ascending order of start
    time, or the exception raised by loading the model or by the third
    generation attempt. *)
Theorem generate_chapters_outcome
    (a : adapter) (d : Q) (max_chapters : Z) (m : Q)
    (progress_callback : option callback) (w : World) :
  (0 <= m)%Q ->
  match snd (generate_chapters a (Some d) max_chapters m progress_callback w) with
  | Ok chapters =>
      length chapters <= 15 /\
      StronglySorted (fun x y : candidate => (start_time x <= start_time y)%Q) chapters
  | Raise e => load_model a = Raise e \/ attempt a 2 = Raise e
  end.
Proof.
  intros Hm. unfold generate_chapters, bind, lift.
  rewrite call_runs. destruct (load_model a) as [[]|e]; [|left; reflexivity].
  rewrite call_runs, call_runs.
  destruct (_generate_with_retry a max_chapters m 3) as [chapters|e] eqn:Hgen.
  - rewrite call_runs, call_runs. cbn [snd ret].
    split; [apply validated_chapters_at_most_15|apply validated_chapters_ascending, Hm].
  - right. eapply retry_raise_is_last, Hgen.
Qed.

Lemma generate_chapters_outcome_witness :
  length (_validate_and_process_chapters Samples.scenario 3600 30) <= 15.
Proof.
  pose proof (generate_chapters_outcome
                (mk_adapter (Ok tt) (fun _ => Ok Samples.scenario))
                3600 15 30 None Samples.running_world) as H.
  apply H. vm_compute. discriminate.
Defined.

Lemma transcribe_video_raises (engine : asr) (video : Video.t) (config : config_t)
    (progress_callback : option callback) (job : option ProcessingJob.t) (w : World) :
  _transcribe_video engine video config progress_callback job w
  = (w, Raise (AttributeError "Video" "file_path")).
Proof. reflexivity. Qed.

Lemma process_video_body_raises (engine : asr) (llm : adapter) (config : config_t)
    (video : Video.t) (video_id : string) (job_id : option string)
    (job : option ProcessingJob.t) (progress_callback : option callback)
    (overrides : option options) (w : World) :
  process_video_body engine llm config video video_id job_id job progress_callback
                     overrides w
  = (run (job_checkpoint job 5 (list_to_map [("step", JStr "transcription_start")]))
         (run (call progress_callback 5 "Starting audio transcription") w),
     Raise (AttributeError "Video" "file_path")).
Proof.
  unfold process_video_body, bind.
  rewrite call_runs, job_checkpoint_runs, transcribe_video_raises. reflexivity.
Qed.

Lemma process_video_handler_raises (job : option ProcessingJob.t)
    (progress_callback : option callback) (e : exn) (w : World) :
  exists e', snd (process_video_handler job progress_callback e w) = Raise e' /\
             (job = None -> e' = e).
Proof.
  unfold process_video_handler, bind. destruct job as [job|].
  - destruct (job_mark_error _ _ _ w) as [w1 [[]|e1]].
    + rewrite call_runs. cbn. eauto.
    + exists e1. split; [reflexivity|discriminate].
  - cbn [ret]. rewrite call_runs. cbn. eauto.
Qed.

(** X17.  [process_video] never returns a result.  For a video that
    exists it fails where the path of the video file is read, before the
    transcription engine or the language model is asked for anything, so
    its outcome is the same whatever engine and model stand behind it; with
    no job attached the exception that reaches the caller is the
    [AttributeError] on [Video.file_path].  For a video that does not exist
    the caller gets [UnboundLocalError] on [job] and nothing has changed. *)
Theorem process_video_never_returns
    (engine : asr) (llm : adapter) (config : config_t) (video_id : string)
    (job_id : option string) (progress_callback : option callback)
    (overrides : option options) (w : World) :
  (exists e,
     snd (process_video engine llm config video_id job_id progress_callback
                        overrides w) = Raise e) /\
  (forall engine' llm',
     process_video engine' llm' config video_id job_id progress_callback overrides w
     = process_video engine llm config video_id job_id progress_callback overrides w) /\
  (videos w !! video_id = None ->
   process_video engine llm config video_id job_id progress_callback overrides w
   = (w, Raise (UnboundLocalError "job"))) /\
  (is_Some (videos w !! video_id) -> job_id = None ->
   snd (process_video engine llm config video_id job_id progress_callback
                      overrides w)
   = Raise (AttributeError "Video" "file_path")).
Proof.
  unfold process_video, bind, Video_get_by_id.
  destruct (videos w !! video_id) as [video|] eqn:Hv.
  - assert (Hbody : forall (job : M (option ProcessingJob.t)) en l,
              (let '(w', r) := job w in
               match r with
               | Ok a =>
                   try_except
                     (process_video_body en l config video video_id job_id a
                        progress_callback overrides)
                     (process_video_handler a progress_callback) w'
               | Raise e => (w', Raise e)
               end)
              = (let '(w', r) := job w in
                 match r with
                 | Ok a =>
                     process_video_handler a progress_callback
                       (AttributeError "Video" "file_path")
                       (run (job_checkpoint a 5
                               (list_to_map [("step", JStr "transcription_start")]))
                          (run (call progress_callback 5
                                     "Starting audio transcription") w'))
                 | Raise e => (w', Raise e)
                 end)).
    { intros job en l. destruct (job w) as [w' [a|e]]; [|reflexivity].
      unfold try_except. rewrite process_video_body_raises. reflexivity. }
    split; [|split; [|split]].
    + rewrite Hbody.
      assert (Hjob : exists a,
                match job_id with
                | Some k => if String.eqb k "" then ret None
                            else ProcessingJob_get_by_id k
                | None => ret None
                end w = (w, Ok a)).
      { destruct job_id as [k|]; [destruct (String.eqb k "")|]; cbn; eauto. }
      destruct Hjob as [a ->].
      destruct (process_video_handler_raises a progress_callback
                  (AttributeError "Video" "file_path")
                  (run (job_checkpoint a 5
                          (list_to_map [("step", JStr "transcription_start")]))
                     (run (call progress_callback 5
                                "Starting audio transcription") w)))
        as (e' & He' & _).
      exists e'. exact He'.
    + intros engine' llm'. rewrite (Hbody _ engine' llm'), (Hbody _ engine llm).
      reflexivity.
    + discriminate.
    + intros _ ->. rewrite Hbody. cbn [ret].
      destruct (process_video_handler_raises None progress_callback
                  (AttributeError "Video" "file_path")
                  (run (job_checkpoint None 5
                          (list_to_map [("step", JStr "transcription_start")]))
                     (run (call progress_callback 5
                                "Starting audio transcription") w)))
        as (e' & He' & Hnone).
      rewrite He', (Hnone eq_refl). reflexivity.
  - split; [|split; [|split]].
    + eexists. reflexivity.
    + reflexivity.
    + reflexivity.
    + intros [v Hsome]. discriminate.
Qed.

Lemma process_video_never_returns_witness :
  snd (process_video (mk_asr (fun _ _ _ _ => ret []) (fun _ => JNull))
         Samples.always_raising default_config "video-1" None None None
         Samples.running_world)
  = Raise (AttributeError "Video" "file_path").
Proof.
  apply (process_video_never_returns
           (mk_asr (fun _ _ _ _ => ret []) (fun _ => JNull))
           Samples.always_raising default_config "video-1" None None None
           Samples.running_world).
  - vm_compute. eauto.
  - reflexivity.
Defined.
End PipelineFacts.

(** ** The dispatcher and the queue task at their edges *)

Section DispatcherEdgeFacts.
Import ProcessingStage ProcessingPipeline.

(** X18.  Unknown identifiers and finished jobs are refused before
    anything is touched: [start_processing] on an unknown video, and
    [cancel_job] and [restart_job] on an unknown job, raise [ValueError]
    and leave the world as it was; [cancel_job] on a job in [COMPLETE] or
    [ERROR] does the same, without asking the queue to revoke anything. *)
Theorem dispatcher_refusals
    (lookup : string -> M (option ProcessingJob.t)) (revoke : string -> M unit)
    (opts : option options) (key : string) (w : World) :
  (videos w !! key = None ->
   start_processing lookup key opts w
   = (w, Raise (ValueError ("Video " +:+ key +:+ " not found")))) /\
  (jobs w !! key = None ->
   cancel_job revoke key w
   = (w, Raise (ValueError ("Job " +:+ key +:+ " not found"))) /\
   restart_job key w
   = (w, Raise (ValueError ("Job " +:+ key +:+ " not found")))) /\
  (forall job,
     jobs w !! key = Some job ->
     ProcessingJob.status job = COMPLETE \/ ProcessingJob.status job = ERROR ->
     cancel_job revoke key w = (w, Raise (ValueError "Cannot cancel completed job"))).
Proof.
  split; [|split].
  - intros Hv. unfold start_processing, try_except, bind, Video_get_by_id.
    rewrite Hv. reflexivity.
  - intros Hj. unfold cancel_job, restart_job, bind, ProcessingJob_get_by_id.
    rewrite Hj. split; reflexivity.
  - intros job Hj Hs. unfold cancel_job, bind, ProcessingJob_get_by_id.
    rewrite Hj. unfold ProcessingJob.is_complete.
    destruct Hs as [-> | ->]; reflexivity.
Qed.

Lemma dispatcher_refusals_witness :
  cancel_job (fun _ => raise (AdapterError "broker down")) "job-1" Samples.failed_world
  = (Samples.failed_world, Raise (ValueError "Cannot cancel completed job")).
Proof.
  apply (dispatcher_refusals (fun _ => ret None)
           (fun _ => raise (AdapterError "broker down")) None "job-1"
           Samples.failed_world) with (job := Samples.failed_job).
  - reflexivity.
  - right. reflexivity.
Defined.

Lemma task_handler_raises {R : Type} (job : option ProcessingJob.t)
    (video_id job_id : string) (retries : nat) (opts : option options)
    (e : exn) (w : World) :
  exists e', snd (task_handler (R := R) job video_id job_id retries opts e w) = Raise e'.
Proof.
  unfold task_handler, bind. cbn [ret].
  destruct job as [job|].
  - destruct (job_mark_error _ _ _ w) as [w1 [[]|e1]]; [|eexists; reflexivity].
    unfold Video_get_by_id.
    destruct (videos w1 !! video_id) as [v|].
    + unfold modify_video, step.
      match goal with
      | |- context [notify_job_update ?k ?w0] =>
          destruct (notify_job_update_frame k w0) as (w' & -> & _)
      end.
      destruct (Nat.ltb retries 3); eexists; reflexivity.
    + cbn [ret].
      match goal with
      | |- context [notify_job_update ?k ?w0] =>
          destruct (notify_job_update_frame k w0) as (w' & -> & _)
      end.
      destruct (Nat.ltb retries 3); eexists; reflexivity.
  - destruct (Nat.ltb retries 3); eexists; reflexivity.
Qed.

(** X19.  The queue task never returns a result, and what it does is the
    same whatever processing pipeline stands behind it: the pipeline is
    never reached.  For a job that does not exist, the task is queued
    again with the same arguments and [Retry] is raised while fewer than
    three retries were made; after that the [ValueError] reaches the queue
    with the world as it was. *)
Theorem process_video_task_never_returns
    {R : Type}
    (process_video :
       ChapterProcessor.config_t -> string -> string -> callback ->
       option options -> M R)
    (retries : nat) (video_id job_id : string) (opts : option options) (w : World) :
  (exists e,
     snd (process_video_task process_video retries video_id job_id opts w) = Raise e) /\
  (forall process_video',
     process_video_task process_video' retries video_id job_id opts w
     = process_video_task process_video retries video_id job_id opts w) /\
  (jobs w !! job_id = None ->
   let not_found := ValueError ("Job " +:+ job_id +:+ " not found") in
   process_video_task process_video retries video_id job_id opts w
   = if Nat.ltb retries 3
     then (set_queue (queue w ++ [mk_task video_id job_id opts]) w,
           Raise (Retry not_found))
     else (w, Raise not_found)).
Proof.
  unfold process_video_task, bind, ProcessingJob_get_by_id, try_except.
  destruct (jobs w !! job_id) as [job|] eqn:Hj.
  - change (task_body process_video (Some job) video_id job_id opts w)
      with (w, @Raise R (AttributeError "ProcessingStage" "PROCESSING")).
    split; [apply task_handler_raises|]. split; [reflexivity|discriminate].
  - change (task_body process_video None video_id job_id opts w)
      with (w, @Raise R (ValueError ("Job " +:+ job_id +:+ " not found"))).
    split; [apply task_handler_raises|]. split; [reflexivity|].
    intros _. cbv zeta. unfold task_handler, bind. cbn [ret].
    destruct (Nat.ltb retries 3); reflexivity.
Qed.

Lemma process_video_task_never_returns_witness :
  process_video_task (fun _ _ _ _ _ => ret tt) 3 "video-1" "job-9" None
                     Samples.running_world
  = (Samples.running_world, Raise (ValueError "Job job-9 not found")).
Proof.
  apply (process_video_task_never_returns
           (fun _ _ _ _ _ => ret tt) 3 "video-1" "job-9" None Samples.running_world).
  reflexivity.
Defined.
End DispatcherEdgeFacts.

(** ** Configuration, estimates and nested progress wrappers *)

Section ConfigurationFacts.
Import ChapterProcessor.

(** X20.  [update_config] on an update whose values have the types the
    code tests for (a minimum chapter length that is a number, a maximum
    chapter count that is an [int]) keeps the chapter settings positive:
    starting from a configuration whose minimum chapter length and maximum
    chapter count are positive, an accepted update gives one with the same
    property, in which every setting named in the update has its new value
    and every other setting its old one.  Such an update is refused
    exactly when it names a minimum length or a maximum count that is not
    positive, the minimum length being checked first. *)
Theorem update_config_keeps_settings_positive (new_config : options) (c : config_t) :
  (0 < min_chapter_length c)%Q -> (0 < max_chapters c)%Z ->
  match update_config new_config c with
  | Ok c' =>
      (0 < min_chapter_length c')%Q /\ (0 < max_chapters c')%Z /\
      min_chapter_length c'
      = default (min_chapter_length c) (opt_min_chapter_length new_config) /\
      max_chapters c' = default (max_chapters c) (opt_max_chapters new_config) /\
      transcription_language c'
      = from_option Some (transcription_language c)
                    (opt_transcription_language new_config) /\
      initial_prompt c'
      = from_option Some (initial_prompt c) (opt_initial_prompt new_config)
  | Raise e =>
      (exists v, opt_min_chapter_length new_config = Some v /\ (v <= 0)%Q /\
                 e = ValueError "min_chapter_length must be a positive number") \/
      (exists n, opt_max_chapters new_config = Some n /\ (n <= 0)%Z /\
                 (forall v, opt_min_chapter_length new_config = Some v -> (0 < v)%Q) /\
                 e = ValueError "max_chapters must be a positive integer")
  end.
Proof.
  intros Hm Hn. unfold update_config, config_update.
  destruct new_config as [om on ol op]. cbn [opt_min_chapter_length opt_max_chapters
    opt_transcription_language opt_initial_prompt].
  destruct om as [v|].
  - destruct (Qle_bool v 0) eqn:Ev.
    { left. exists v. apply Qle_bool_iff in Ev. auto. }
    assert (Hv : (0 < v)%Q).
    { apply Qnot_le_lt. intros Hle. apply Qle_bool_iff in Hle. congruence. }
    destruct on as [n|].
    + destruct (n <=? 0)%Z eqn:En.
      { right. exists n. apply Z.leb_le in En. repeat split; auto.
        intros v' [= <-]. exact Hv. }
      apply Z.leb_gt in En. cbn. destruct ol, op; repeat split; auto.
    + cbn. destruct ol, op; repeat split; auto.
  - destruct on as [n|].
    + destruct (n <=? 0)%Z eqn:En.
      { right. exists n. apply Z.leb_le in En. repeat split; auto. discriminate. }
      apply Z.leb_gt in En. cbn. destruct ol, op; repeat split; auto.
    + cbn. destruct ol, op; repeat split; auto.
Qed.

Lemma update_config_keeps_settings_positive_witness :
  match update_config (mk_options (Some 45%Q) None None None) default_config with
  | Ok c' => (0 < min_chapter_length c')%Q /\ (0 < max_chapters c')%Z
  | Raise _ => False
  end.
Proof.
  pose proof (update_config_keeps_settings_positive
                (mk_options (Some 45%Q) None None None) default_config) as H.
  cbn in H |- *. split; apply H; reflexivity.
Defined.

(** X21.  The time estimate: a video of unknown duration makes
    [estimate_processing_time] raise [TypeError]; otherwise the total is
    the sum of the three parts and saving always counts 10 seconds.  For a
    duration that is not negative the total is smallest on [cuda], larger
    on [mps] and largest on [cpu]. *)
Theorem estimate_processing_time_ordering (dev : device_t) (video : Video.t) :
  (Video.duration video = None ->
   estimate_processing_time dev video
   = Raise (TypeError "unsupported operand type(s) for *")) /\
  (forall d,
     Video.duration video = Some d ->
     exists transcription generation total,
       estimate_processing_time dev video
       = Ok (transcription, generation, 10%Q, total) /\
       (total == transcription + generation + 10)%Q) /\
  (forall d,
     Video.duration video = Some d -> (0 <= d)%Q ->
     exists on_cuda on_mps on_cpu,
       estimate_processing_time cuda video = Ok on_cuda /\
       estimate_processing_time mps video = Ok on_mps /\
       estimate_processing_time cpu video = Ok on_cpu /\
       (snd on_cuda <= snd on_mps)%Q /\ (snd on_mps <= snd on_cpu)%Q).
Proof.
  unfold estimate_processing_time. split; [|split].
  - intros ->. reflexivity.
  - intros d ->. destruct dev; do 3 eexists; split; reflexivity.
  - intros d -> Hd. do 3 eexists.
    split; [reflexivity|]. split; [reflexivity|]. split; [reflexivity|].
    cbn [snd]. split; lra.
Qed.

Lemma estimate_processing_time_ordering_witness :
  exists on_cuda on_cpu,
    estimate_processing_time cuda Samples.video1 = Ok on_cuda /\
    estimate_processing_time cpu Samples.video1 = Ok on_cpu /\
    (snd on_cuda <= snd on_cpu)%Q.
Proof.
  destruct (estimate_processing_time_ordering cpu Samples.video1) as (_ & _ & H).
  destruct (H 3600%Q) as (c & m & p & Hc & Hm & Hp & H1 & H2).
  - reflexivity.
  - vm_compute. discriminate.
  - exists c, p. split; [exact Hc|]. split; [exact Hp|].
    eapply Qle_trans; [exact H1|exact H2].
Defined.

(** X22.  Progress of the transcription as it reaches the caller of
    [process_video]: the engine's wrapper maps the raw progress [p] of the
    transcription to [20 + 0.8 p] and hands it to the processor's wrapper,
    which halves it and prefixes the message, so the caller's callback
    receives [10 + 0.4 p]; for [p] from 0 to 100 that lies between 10 and
    50, and it grows with [p]. *)
Theorem nested_transcription_progress
    (cb : callback) (p q : Q) (message : string) (w : World) :
  ASRProcessor.transcribe_progress_callback
    (Some (transcription_progress (Some cb) None)) p message w
  = cb (transcription_adjusted (ASRProcessor.transcribe_adjusted p))
       ("Transcription: " +:+ message) w /\
  (transcription_adjusted (ASRProcessor.transcribe_adjusted p) == 10 + p * (4 # 10))%Q /\
  ((0 <= p)%Q -> (p <= 100)%Q ->
   (10 <= transcription_adjusted (ASRProcessor.transcribe_adjusted p) <= 50)%Q) /\
  ((p <= q)%Q ->
   (transcription_adjusted (ASRProcessor.transcribe_adjusted p)
    <= transcription_adjusted (ASRProcessor.transcribe_adjusted q))%Q).
Proof.
  split; [reflexivity|].
  unfold transcription_adjusted, ASRProcessor.transcribe_adjusted, Qdiv.
  change (/ 100)%Q with (1 # 100)%Q.
  split; [|split].
  - ring.
  - intros H0 H1. split; lra.
  - intros Hpq. lra.
Qed.

Lemma nested_transcription_progress_witness :
  (10 <= transcription_adjusted (ASRProcessor.transcribe_adjusted 50) <= 50)%Q.
Proof.
  apply (nested_transcription_progress (fun _ _ w => w) 50 50 "" Samples.running_world);
    vm_compute; discriminate.
Defined.
End ConfigurationFacts.

(** ** Saving the chapters *)

Section SaveFacts.
Import ChapterProcessor.

Lemma call_keeps_table (cb : option callback) (p : Q) (msg : string) (w : World) :
  (forall f q m w0, cb = Some f -> chapter_table (f q m w0) = chapter_table w0) ->
  chapter_table (run (call cb p msg) w) = chapter_table w.
Proof.
  intros Hcb. destruct cb as [f|]; [|reflexivity].
  cbn. apply (Hcb f). reflexivity.
Qed.

(** One pass of the saving loop appends one row; its key is its position. *)
Lemma save_one_appends (video_id : string) (chapters : list LLMProcessor.candidate)
    (cb : option callback) (i : nat) (c : LLMProcessor.candidate) (w : World) :
  (forall f q m w0, cb = Some f -> chapter_table (f q m w0) = chapter_table w0) ->
  exists w',
    save_one video_id chapters cb i c w = (w', Ok (length (chapter_table w))) /\
    chapter_table w'
    = chapter_table w
      ++ [Chapter.mk (length (chapter_table w)) video_id (LLMProcessor.title c)
            (LLMProcessor.start_time c)
            (LLMProcessor.start_time <$> chapters !! S i)
            (LLMProcessor.confidence c) true (i + 1)].
Proof.
  intros Hcb. unfold save_one, bind, step. rewrite call_runs. cbn [ret].
  eexists. split; [reflexivity|].
  rewrite call_keeps_table by exact Hcb. cbn [chapter_table set_chapters].
  f_equal. f_equal.
  destruct (Nat.ltb i (length chapters - 1)) eqn:E.
  - cbn. rewrite Nat.add_1_r. reflexivity.
  - apply Nat.ltb_ge in E.
    rewrite (proj2 (lookup_ge_None chapters (S i))) by lia. reflexivity.
Qed.

Lemma save_loop_appends (video_id : string) (chapters : list LLMProcessor.candidate)
    (cb : option callback) (todo : list LLMProcessor.candidate) :
  (forall f q m w0, cb = Some f -> chapter_table (f q m w0) = chapter_table w0) ->
  forall i w,
  exists w',
    save_loop video_id chapters cb i todo w
    = (w', Ok (seq (length (chapter_table w)) (length todo))) /\
    chapter_table w'
    = chapter_table w
      ++ imap (fun j c =>
                 Chapter.mk (length (chapter_table w) + j) video_id
                   (LLMProcessor.title c) (LLMProcessor.start_time c)
                   (LLMProcessor.start_time <$> chapters !! S (i + j))
                   (LLMProcessor.confidence c) true (i + j + 1)) todo.
Proof.
  intros Hcb. induction todo as [|c rest IH]; intros i w; cbn [save_loop].
  - exists w. split; [reflexivity|]. cbn. rewrite app_nil_r. reflexivity.
  - destruct (save_one_appends video_id chapters cb i c w Hcb) as (w1 & H1 & T1).
    destruct (IH (S i) w1) as (w2 & H2 & T2).
    exists w2. unfold bind. rewrite H1, H2. cbn [ret]. split.
    + rewrite T1, length_app. cbn [length seq].
      rewrite Nat.add_1_r. reflexivity.
    + rewrite T2, T1, <- app_assoc. f_equal. cbn [app imap].
      rewrite !Nat.add_0_r. f_equal.
      apply imap_ext. intros j x _. unfold compose.
      rewrite length_app. cbn [length].
      replace (length (chapter_table w) + 1 + j) with (length (chapter_table w) + S j)
        by lia.
      replace (S i + j) with (i + S j) by lia. reflexivity.
Qed.

Lemma index_of_fmap (f : Chapter.t -> Chapter.t) (k : nat) (rows : list Chapter.t) :
  (forall c, Chapter.set_order 0 (f c) = Chapter.set_order 0 c) ->
  Chapter.index_of k (f <$> rows) = Chapter.index_of k rows.
Proof.
  intros Hsame. induction rows as [|r rows IH]; [reflexivity|].
  cbn. rewrite IH.
  replace (Chapter.id (f r)) with (Chapter.id r)
    by (symmetry; exact (f_equal Chapter.id (Hsame r))).
  reflexivity.
Qed.

(** Renumbering twice is renumbering once. *)
Lemma update_order_idempotent (video : string) (table : list Chapter.t) :
  Chapter.update_order video (Chapter.update_order video table)
  = Chapter.update_order video table.
Proof.
  rewrite (update_order_as_fmap video (Chapter.update_order video table)).
  pose proof (update_order_as_fmap video table) as Ht.
  set (ranked := Chapter.get_by_video video table) in *.
  set (f := fun c => match Chapter.index_of (Chapter.id c) ranked with
                     | Some i => Chapter.set_order (S i) c
                     | None => c
                     end) in *.
  assert (Hf : forall c, Chapter.set_order 0 (f c) = Chapter.set_order 0 c)
    by (intros c; apply renumber_keeps_columns).
  rewrite Ht, (get_by_video_fmap video f table Hf). fold ranked.
  rewrite <- list_fmap_compose. apply list_fmap_ext. intros p c _. cbn.
  rewrite (index_of_fmap f _ ranked Hf).
  replace (Chapter.id (f c)) with (Chapter.id c)
    by (symmetry; exact (f_equal Chapter.id (Hf c))).
  unfold f. destruct (Chapter.index_of (Chapter.id c) ranked); reflexivity.
Qed.

Lemma update_order_repeated (video : string) (table : list Chapter.t) (keys : list nat) :
  foldr (fun _ t => Chapter.update_order video t) table keys
  = match keys with
    | [] => table
    | _ :: _ => Chapter.update_order video table
    end.
Proof.
  induction keys as [|k keys IH]; [reflexivity|].
  cbn [foldr]. rewrite IH. destruct keys; [reflexivity|].
  apply update_order_idempotent.
Qed.

(** With keys that are positions, a row is found where its key says. *)
Lemma find_by_position (table : list Chapter.t) :
  Chapter.id <$> table = seq 0 (length table) ->
  forall k, List.find (fun c => Nat.eqb (Chapter.id c) k) table = table !! k.
Proof.
  intros Hids.
  assert (H : forall base (t : list Chapter.t),
            Chapter.id <$> t = seq base (length t) ->
            forall k, List.find (fun c => Nat.eqb (Chapter.id c) (base + k)) t = t !! k).
  { clear. intros base t. revert base.
    induction t as [|r t IH]; intros base Hids k; [reflexivity|].
    cbn in Hids. injection Hids as Hr Ht. cbn [List.find].
    destruct k as [|k].
    - rewrite Nat.add_0_r, Hr, Nat.eqb_refl. reflexivity.
    - rewrite Hr. destruct (Nat.eqb base (base + S k)) eqn:E;
        [apply Nat.eqb_eq in E; lia|].
      rewrite <- Nat.add_succ_comm. exact (IH (S base) Ht k). }
  intros k. exact (H 0 table Hids k).
Qed.

Lemma omap_find_seq (table : list Chapter.t) (a n : nat) :
  Chapter.id <$> table = seq 0 (length table) ->
  a + n <= length table ->
  omap (fun k => List.find (fun c => Nat.eqb (Chapter.id c) k) table) (seq a n)
  = take n (drop a table).
Proof.
  intros Hids. revert a. induction n as [|n IH]; intros a Ha; [reflexivity|].
  destruct (lookup_lt_is_Some_2 table a ltac:(lia)) as [x Hx].
  cbn [seq omap list_omap]. rewrite (find_by_position table Hids a), Hx.
  change (list_omap _ _ ?f ?l) with (omap f l).
  rewrite IH by lia. rewrite (drop_S table x a Hx). reflexivity.
Qed.

(** A stable sort leaves an ascending list as it is. *)
Lemma sorted_asc_of_ascending {A} (k : A -> Q) (l : list A) :
  StronglySorted (fun a b => (k a <= k b)%Q) l -> sorted_asc k l = l.
Proof.
  unfold sorted_asc, sort_by. induction 1 as [|x l Hl IH Hx]; [reflexivity|].
  cbn [foldr]. rewrite IH. destruct l as [|y l]; [reflexivity|].
  cbn. apply Forall_cons in Hx as [Hxy _].
  apply Qle_bool_iff in Hxy. rewrite Hxy. reflexivity.
Qed.

Lemma saved_rows_cons (video_id : string) (chapters : list LLMProcessor.candidate)
    (a i : nat) (c : LLMProcessor.candidate) (l : list LLMProcessor.candidate) :
  imap (fun j x =>
          Chapter.mk (a + j) video_id (LLMProcessor.title x) (LLMProcessor.start_time x)
            (LLMProcessor.start_time <$> chapters !! S (i + j))
            (LLMProcessor.confidence x) true (i + j + 1)) (c :: l)
  = Chapter.mk a video_id (LLMProcessor.title c) (LLMProcessor.start_time c)
      (LLMProcessor.start_time <$> chapters !! S i)
      (LLMProcessor.confidence c) true (i + 1)
    :: imap (fun j x =>
               Chapter.mk (S a + j) video_id (LLMProcessor.title x)
                 (LLMProcessor.start_time x)
                 (LLMProcessor.start_time <$> chapters !! S (S i + j))
                 (LLMProcessor.confidence x) true (S i + j + 1)) l.
Proof.
  cbn [imap]. rewrite !Nat.add_0_r. f_equal.
  apply imap_ext. intros j x _. unfold compose.
  replace (a + S j) with (S a + j) by lia.
  replace (i + S j) with (S i + j) by lia. reflexivity.
Qed.

Lemma saved_rows_facts (video_id : string) (chapters l : list LLMProcessor.candidate) :
  forall a i,
    let rows :=
      imap (fun j x =>
              Chapter.mk (a + j) video_id (LLMProcessor.title x)
                (LLMProcessor.start_time x)
                (LLMProcessor.start_time <$> chapters !! S (i + j))
                (LLMProcessor.confidence x) true (i + j + 1)) l in
    Chapter.id <$> rows = seq a (length l) /\
    filter (fun c => Chapter.video_id c = video_id) rows = rows /\
    Forall (fun r => exists x, x ∈ l /\ Chapter.start_time r = LLMProcessor.start_time x)
           rows /\
    (StronglySorted (fun x y => (LLMProcessor.start_time x <= LLMProcessor.start_time y)%Q) l ->
     StronglySorted (fun x y => (Chapter.start_time x <= Chapter.start_time y)%Q) rows).
Proof.
  induction l as [|c l IH]; intros a i; cbv zeta.
  - cbn. repeat split; constructor.
  - rewrite saved_rows_cons. destruct (IH (S a) (S i)) as (Hid & Hfilter & Hstart & Hsorted).
    cbv zeta in Hid, Hfilter, Hstart, Hsorted.
    split; [|split; [|split]].
    + rewrite fmap_cons, Hid. reflexivity.
    + rewrite filter_cons_True by reflexivity. rewrite Hfilter. reflexivity.
    + constructor.
      * exists c. split; [left|reflexivity].
      * eapply Forall_impl; [exact Hstart|]. cbv beta.
        intros r (x & Hx & Hr). exists x. split; [right; exact Hx|exact Hr].
    + intros Hs. apply StronglySorted_inv in Hs as [Hs Hc].
      constructor; [apply Hsorted, Hs|].
      eapply Forall_impl; [exact Hstart|]. cbv beta.
      intros r (x & Hx & Hr). cbn [Chapter.start_time]. rewrite Hr.
      rewrite Forall_forall in Hc. apply Hc, Hx.
Qed.

Lemma filter_none (video_id : string) (table : list Chapter.t) :
  Forall (fun c => Chapter.video_id c <> video_id) table ->
  filter (fun c => Chapter.video_id c = video_id) table = [].
Proof.
  induction 1 as [|c table Hc Ht IH]; [reflexivity|].
  rewrite filter_cons_False by exact Hc. exact IH.
Qed.

(** X23.  What [_save_chapters] stores.  The chapter table has the
    position of a row as its key, and the progress callback leaves the
    table alone.  Then the call returns one row per candidate, in the order
    of the candidates, and these rows are exactly what the table gained;
    the rows that were there keep everything but their order.  Row [i]
    has the title, start time and confidence of candidate [i], belongs to
    the video, is flagged as generated, and ends where candidate [i + 1]
    starts (the last row has no end time).  After a call with at least one
    candidate the chapters of the video, read by start time, are numbered
    1, 2, ..., and when the video had no chapter before and the candidates
    come in ascending order of start time, row [i] has order [i + 1]. *)
Theorem save_chapters_rows
    (chapters : list LLMProcessor.candidate) (video_id : string)
    (cb : option callback) (w : World) :
  Chapter.id <$> chapter_table w = seq 0 (length (chapter_table w)) ->
  (forall f q m w0, cb = Some f -> chapter_table (f q m w0) = chapter_table w0) ->
  exists w' rows,
    _save_chapters chapters video_id cb w = (w', Ok rows) /\
    length rows = length chapters /\
    drop (length (chapter_table w)) (chapter_table w') = rows /\
    Chapter.set_order 0 <$> take (length (chapter_table w)) (chapter_table w')
    = Chapter.set_order 0 <$> chapter_table w /\
    Chapter.set_order 0 <$> rows
    = imap (fun i c =>
              Chapter.mk (length (chapter_table w) + i) video_id
                (LLMProcessor.title c) (LLMProcessor.start_time c)
                (LLMProcessor.start_time <$> chapters !! S i)
                (LLMProcessor.confidence c) true 0) chapters /\
    (chapters <> [] ->
     Chapter.order <$> Chapter.get_by_video video_id (chapter_table w')
     = seq 1 (length (Chapter.get_by_video video_id (chapter_table w')))) /\
    (Forall (fun c => Chapter.video_id c <> video_id) (chapter_table w) ->
     StronglySorted
       (fun x y => (LLMProcessor.start_time x <= LLMProcessor.start_time y)%Q)
       chapters ->
     Chapter.order <$> rows = seq 1 (length chapters)).
Proof.
  intros Hids Hcb.
  destruct (save_loop_appends video_id chapters cb chapters Hcb 0 w)
    as (w1 & Hloop & HT1).
  destruct (saved_rows_facts video_id chapters chapters (length (chapter_table w)) 0)
    as (Hrid & Hrfilter & _ & Hrsorted).
  cbv zeta in Hrid, Hrfilter, Hrsorted.
  set (T := chapter_table w) in *.
  set (R0 := imap _ chapters) in *.
  set (T1 := chapter_table w1) in *.
  assert (HlenR0 : length R0 = length chapters) by (subst R0; apply length_imap).
  unfold _save_chapters, bind, step. rewrite Hloop. cbn [ret].
  cbn [chapter_table set_chapters]. fold T1. rewrite update_order_repeated.
  set (T2 := match seq (length T) (length chapters) with
             | [] => T1
             | _ :: _ => Chapter.update_order video_id T1
             end).
  assert (Herase : Chapter.set_order 0 <$> T2 = Chapter.set_order 0 <$> T1).
  { unfold T2. destruct (seq (length T) (length chapters));
      [reflexivity|apply update_order_erase]. }
  assert (Hid_erase : forall t : list Chapter.t,
            Chapter.id <$> (Chapter.set_order 0 <$> t) = Chapter.id <$> t).
  { intros t. rewrite <- list_fmap_compose. apply list_fmap_ext. reflexivity. }
  assert (Hids1 : Chapter.id <$> T1 = seq 0 (length T1)).
  { rewrite HT1, fmap_app, Hids, Hrid, length_app, HlenR0, seq_app. reflexivity. }
  assert (Hlen2 : length T2 = length T1).
  { rewrite <- (length_fmap (Chapter.set_order 0) T2), Herase, length_fmap.
    reflexivity. }
  assert (Hids2 : Chapter.id <$> T2 = seq 0 (length T2)).
  { rewrite <- Hid_erase, Herase, Hid_erase, Hlen2. exact Hids1. }
  assert (HlenT1 : length T1 = length T + length chapters).
  { rewrite HT1, length_app, HlenR0. reflexivity. }
  assert (Hrows :
    omap (fun k => List.find (fun c => Nat.eqb (Chapter.id c) k) T2)
         (seq (length T) (length chapters))
    = drop (length T) T2).
  { rewrite (omap_find_seq T2 _ _ Hids2) by lia.
    apply take_ge. rewrite length_drop. lia. }
  eexists. exists (drop (length T) T2).
  split; [rewrite Hrows; reflexivity|].
  assert (Herase_split :
    Chapter.set_order 0 <$> take (length T) T2 = Chapter.set_order 0 <$> T /\
    Chapter.set_order 0 <$> drop (length T) T2 = Chapter.set_order 0 <$> R0).
  { rewrite fmap_take, fmap_drop, Herase, HT1, fmap_app.
    rewrite take_app_length', drop_app_length'
      by (rewrite ?length_fmap; reflexivity).
    split; reflexivity. }
  destruct Herase_split as [Hold Hnew].
  split; [rewrite length_drop; lia|].
  split; [reflexivity|].
  split; [exact Hold|].
  split.
  { rewrite Hnew. subst R0. rewrite fmap_imap. apply imap_ext.
    intros i c _. reflexivity. }
  assert (Hnd1 : NoDup (Chapter.id <$> T1)) by (rewrite Hids1; apply NoDup_seq).
  assert (Hquery : chapters <> [] ->
            T2 = Chapter.update_order video_id T1 /\
            Chapter.get_by_video video_id T2
            = (fun c => match Chapter.index_of (Chapter.id c)
                                (Chapter.get_by_video video_id T1) with
                        | Some i => Chapter.set_order (S i) c
                        | None => c
                        end) <$> Chapter.get_by_video video_id T1).
  { intros Hne.
    assert (HT2 : T2 = Chapter.update_order video_id T1).
    { subst T2. destruct chapters; [congruence|reflexivity]. }
    split; [exact HT2|]. rewrite HT2, update_order_as_fmap.
    apply get_by_video_fmap. intros c. apply renumber_keeps_columns. }
  split.
  - intros Hne. destruct (Hquery Hne) as [HT2 Hq].
    rewrite Hq at 2. rewrite length_fmap, HT2.
    apply update_order_ranks, Hnd1.
  - intros Hother Hasc.
    destruct chapters as [|c0 cs] eqn:Hch.
    { assert (Hd : drop (length T) T2 = []).
      { apply nil_length_inv. rewrite length_drop, Hlen2, HlenT1. cbn. lia. }
      rewrite Hd. reflexivity. }
    rewrite <- Hch in *.
    assert (Hne : chapters <> []) by (rewrite Hch; discriminate).
    destruct (Hquery Hne) as [HT2 Hq].
    assert (Hranked : Chapter.get_by_video video_id T1 = R0).
    { unfold Chapter.get_by_video. rewrite HT1, filter_app, Hrfilter.
      rewrite (filter_none video_id T Hother). cbn [app].
      apply sorted_asc_of_ascending, Hrsorted, Hasc. }
    assert (Hdrop : drop (length T) T2 = Chapter.get_by_video video_id T2).
    { rewrite Hq, Hranked, HT2, update_order_as_fmap, Hranked, HT1.
      rewrite fmap_app, drop_app_length' by (rewrite ?length_fmap; reflexivity).
      reflexivity. }
    rewrite Hdrop, HT2, (update_order_ranks video_id T1 Hnd1), Hranked, HlenR0.
    reflexivity.
Qed.
Lemma save_chapters_rows_witness :
  exists w' rows,
    _save_chapters Samples.close_pair "video-1" None Samples.running_world
    = (w', Ok rows) /\
    length rows = 2 /\
    Chapter.order <$> rows = [1; 2].
Proof.
  destruct (save_chapters_rows Samples.close_pair "video-1" None
              Samples.running_world) as (w' & rows & H1 & H2 & _ & _ & _ & _ & H3).
  - reflexivity.
  - intros f q m w0 Hf. discriminate Hf.
  - exists w', rows. split; [exact H1|]. split; [exact H2|].
    apply H3.
    + constructor.
    + repeat constructor; vm_compute; discriminate.
Defined.
End SaveFacts.
